(** * input_timetable: a day-cyclic on/off timetable entity

    A shallow embedding of [__init__.py] (the [input_timetable] component)
    and the properties of its timetable engine: the state at an instant, the
    choice of the next wake-up, the mutations [set] / [unset] / [reset] /
    [reconfig], and the attribute format used to restore a timetable.

    Conventions of the embedding:
    - a [datetime.time] is the record of its four fields, compared the way
      Python compares naive times (lexicographically on the field tuple);
      every time the entity stores or reads is naive, so no tzinfo is kept;
    - a date is its proleptic ordinal, [today + timedelta(days=1)] is [+ 1];
    - the entity and the part of the host it talks to (clock, one-shot
      timers, state machine) form one [World]; methods are computations in
      a state-and-exception monad over it;
    - what the entity does to the host is recorded in a trace, newest event
      first, and the set of outstanding timers is a function of that trace. *)

From Stdlib Require Import ZArith String Ascii List Sorted Permutation Lia Bool.
From stdpp Require Import base decidable countable gmap list sorting strings.

Local Open Scope string_scope.
Local Open Scope list_scope.
Local Open Scope nat_scope.

(* ===================================================================== *)
(** * Times, dates and the clock                                           *)
(* ===================================================================== *)

Module datetime.

Local Open Scope N_scope.

Record time := mk_time {
  hour : N;
  minute : N;
  second : N;
  microsecond : N
}.

(** The value ranges the [datetime.time] constructor enforces. *)
Definition valid (t : time) : Prop :=
  hour t < 24 ∧ minute t < 60 ∧ second t < 60 ∧ microsecond t < 1000000.

(** [time._cmp]: comparison of the tuples (hour, minute, second, microsecond). *)
Definition cmp (a b : time) : comparison :=
  match N.compare (hour a) (hour b) with
  | Eq =>
      match N.compare (minute a) (minute b) with
      | Eq =>
          match N.compare (second a) (second b) with
          | Eq => N.compare (microsecond a) (microsecond b)
          | c => c
          end
      | c => c
      end
  | c => c
  end.

(** [a < b], [a <= b] and [a == b] on naive times. *)
Definition time_lt (a b : time) : bool :=
  match cmp a b with Lt => true | _ => false end.
Definition time_le (a b : time) : bool :=
  match cmp a b with Gt => false | _ => true end.
Definition time_eq (a b : time) : bool :=
  match cmp a b with Eq => true | _ => false end.

(** The order [cmp] decides, spelled out on the fields. *)
Definition before (a b : time) : Prop :=
  hour a < hour b ∨
  (hour a = hour b ∧
   (minute a < minute b ∨
    (minute a = minute b ∧
     (second a < second b ∨
      (second a = second b ∧ microsecond a < microsecond b))))).

(** [time.replace(microsecond=0, tzinfo=None)] *)
Definition replace_microsecond_0 (t : time) : time :=
  mk_time (hour t) (minute t) (second t) 0.

Definition date := Z.

(** [datetime.datetime.combine(date, time)] is the constructor. *)
Record datetime := combine { date_of : date; time_of : time }.

(** [today + datetime.timedelta(days=1)] *)
Definition add_days (d : date) (n : Z) : date := (d + n)%Z.

(** ** [time.isoformat()] with the default [timespec='auto'] *)

Definition digit (n : N) : ascii := ascii_of_N (48 + n mod 10).

(** ["%02d"] of a field below 100. *)
Definition fmt02 (n : N) : list ascii := [digit (n / 10); digit n].

(** ["%06d"] of a field below 1000000. *)
Definition fmt06 (n : N) : list ascii :=
  [digit (n / 100000); digit (n / 10000); digit (n / 1000);
   digit (n / 100); digit (n / 10); digit n].

Definition colon : ascii := ":"%char.
Definition dot : ascii := "."%char.

Definition isoformat_chars (t : time) : list ascii :=
  fmt02 (hour t) ++ colon :: fmt02 (minute t) ++ colon :: fmt02 (second t)
  ++ (if microsecond t =? 0 then [] else dot :: fmt06 (microsecond t)).

Definition isoformat (t : time) : string :=
  string_of_list_ascii (isoformat_chars t).

(** ** [time.fromisoformat]

    The grammar is the one [isoformat] emits for a naive time,
    [HH[:MM[:SS[.fff[fff]]]]], decimal digits only; the constructor's range
    checks follow.  On a string of that grammar the result is the library's.
    [None] says that the string is not of that grammar.  For a string that
    no [time.fromisoformat] reads (see [begins_with_lowercase]) that is the
    library's [ValueError]; a string with a UTC offset the library reads as
    an aware time, which the naive [time] record cannot hold: such strings
    are outside this model, and nothing below is stated about them. *)

Definition digit_val (c : ascii) : option N :=
  let n := N_of_ascii c in
  if (48 <=? n) && (n <=? 57) then Some (n - 48) else None.

Fixpoint parse_digits (cs : list ascii) (acc : N) : option N :=
  match cs with
  | [] => Some acc
  | c :: rest =>
      match digit_val c with
      | Some d => parse_digits rest (10 * acc + d)
      | None => None
      end
  end.

Definition parse_fraction (cs : list ascii) : option N :=
  match length cs with
  | 3%nat => option_map (λ n, n * 1000) (parse_digits cs 0)
  | 6%nat => parse_digits cs 0
  | _ => None
  end.

Definition parse_hh_mm_ss_ff (cs : list ascii) : option (N * N * N * N) :=
  match cs with
  | [h1; h2] =>
      h ← parse_digits [h1; h2] 0; Some (h, 0, 0, 0)
  | [h1; h2; c1; m1; m2] =>
      if Ascii.eqb c1 colon then
        h ← parse_digits [h1; h2] 0;
        m ← parse_digits [m1; m2] 0; Some (h, m, 0, 0)
      else None
  | h1 :: h2 :: c1 :: m1 :: m2 :: c2 :: s1 :: s2 :: frac =>
      if Ascii.eqb c1 colon && Ascii.eqb c2 colon then
        h ← parse_digits [h1; h2] 0;
        m ← parse_digits [m1; m2] 0;
        s ← parse_digits [s1; s2] 0;
        match frac with
        | [] => Some (h, m, s, 0)
        | d :: ff =>
            if Ascii.eqb d dot then
              us ← parse_fraction ff; Some (h, m, s, us)
            else None
        end
      else None
  | _ => None
  end.

Definition fromisoformat (s : string) : option time :=
  match parse_hh_mm_ss_ff (list_ascii_of_string s) with
  | Some (h, m, s, us) =>
      if (h <? 24) && (m <? 60) && (s <? 60) && (us <? 1000000)
      then Some (mk_time h m s us) else None
  | None => None
  end.

End datetime.

(** [MIDNIGHT = datetime.time()] *)
Definition MIDNIGHT : datetime.time := datetime.mk_time 0 0 0 0.

(** [homeassistant.const.STATE_ON], [STATE_OFF] *)
Definition STATE_ON : string := "on".
Definition STATE_OFF : string := "off".

(** [homeassistant.const.CONF_NAME], [CONF_ID] *)
Definition CONF_NAME : string := "name".
Definition CONF_ID : string := "id".

(** [remove_micros_and_tz]: times are naive here, so only the microseconds
    are left to remove. *)
Definition remove_micros_and_tz (time : datetime.time) : datetime.time :=
  datetime.replace_microsecond_0 time.

#[global] Instance time_eq_dec : EqDecision datetime.time.
Proof. solve_decision. Defined.

#[global] Instance time_countable : Countable datetime.time :=
  inj_countable'
    (λ t, (datetime.hour t, datetime.minute t, datetime.second t,
           datetime.microsecond t))
    (λ p, match p with (h, m, s, us) => datetime.mk_time h m s us end)
    (λ t, match t with datetime.mk_time _ _ _ _ => eq_refl end).

(* ===================================================================== *)
(** * State events                                                         *)
(* ===================================================================== *)

Module StateEvent.

(** [class StateEvent]: a time and a state value. *)
Record t := mk { time : datetime.time; state : string }.

End StateEvent.

Abbreviation event := StateEvent.t.

(** One entry of the attribute format:
    [{ATTR_TIME: "HH:MM:SS", ATTR_STATE: state}]. *)
Record attr_event := mk_attr { attr_time : string; attr_state : string }.

(** One entry of the [reconfig] service data, after the service schema:
    [{ATTR_TIME: time, ATTR_STATE: state}]. *)
Record conf_event := mk_conf { conf_time : datetime.time; conf_state : string }.

(* ===================================================================== *)
(** * The entity, the host and the method monad                            *)
(* ===================================================================== *)

(** The [CALLBACK_TYPE] returned by [async_track_point_in_time] cancels one
    timer; it is represented by the handle of that timer. *)
Definition handle := nat.

(** The fields [__init__] sets. *)
Record entity := mk_entity {
  _config : gmap string string;
  _timetable : list event;
  editable : bool;
  _event_unsub : option handle
}.

(** The value of the [state_attributes] property. *)
Record attributes := mk_attributes {
  ATTR_EDITABLE : bool;
  ATTR_TIMETABLE : list attr_event
}.

(** What the entity and its timers do to the host, as the host sees it. *)
Inductive host_event :=
| Arm (h : handle) (point_in_time : datetime.datetime)
| Cancel (h : handle)
| Fire (h : handle)
| WriteState (st : string) (attrs : attributes).

(** The timers that are armed and have neither fired nor been cancelled,
    after the events of a trace (newest first). *)
Fixpoint outstanding (tr : list host_event) : list (handle * datetime.datetime) :=
  match tr with
  | [] => []
  | Arm h p :: older => (h, p) :: outstanding older
  | Cancel h :: older => filter (λ t, t.1 ≠ h) (outstanding older)
  | Fire h :: older => filter (λ t, t.1 ≠ h) (outstanding older)
  | WriteState _ _ :: older => outstanding older
  end.

(** The entity together with the host: [clock] gives the successive readings
    of [dt_util.now()], [ticks] counts the readings taken so far. *)
Record World := mk_world {
  self : entity;
  clock : nat → datetime.datetime;
  ticks : nat;
  next_handle : handle;
  trace : list host_event
}.

Inductive Exc :=
| Invalid (msg : string)        (* vol.Invalid *)
| ValueError (msg : string).

Inductive Result (A : Type) :=
| Ok (a : A)
| Raise (e : Exc).
Arguments Ok {A} a.
Arguments Raise {A} e.

(** A method: it may change the world and either returns or raises; what it
    changed before raising stays changed. *)
Definition M (A : Type) : Type := World → Result A * World.

#[global] Instance M_ret : MRet M := λ A a w, (Ok a, w).

#[global] Instance M_bind : MBind M := λ A B k m w,
  match m w with
  | (Ok a, w') => k a w'
  | (Raise e, w') => (Raise e, w')
  end.

Definition raise {A} (e : Exc) : M A := λ w, (Raise e, w).

Definition get_self : M entity := λ w, (Ok (self w), w).

Definition put_self (s : entity) : M unit := λ w,
  (Ok (), mk_world s (clock w) (ticks w) (next_handle w) (trace w)).

Definition set_config (c : gmap string string) : M unit :=
  s ← get_self;
  put_self (mk_entity c (_timetable s) (editable s) (_event_unsub s)).

Definition set_timetable (l : list event) : M unit :=
  s ← get_self;
  put_self (mk_entity (_config s) l (editable s) (_event_unsub s)).

Definition set_event_unsub (u : option handle) : M unit :=
  s ← get_self;
  put_self (mk_entity (_config s) (_timetable s) (editable s) u).

Definition emit (ev : host_event) : M unit := λ w,
  (Ok (), mk_world (self w) (clock w) (ticks w) (next_handle w) (ev :: trace w)).

(** [dt_util.now()] *)
Definition dt_util_now : M datetime.datetime := λ w,
  (Ok (clock w (ticks w)),
   mk_world (self w) (clock w) (S (ticks w)) (next_handle w) (trace w)).

(** [event_helper.async_track_point_in_time(hass, action, point_in_time)]:
    arms a one-shot timer and returns the callable that cancels it. *)
Definition async_track_point_in_time (point_in_time : datetime.datetime) : M handle :=
  λ w,
  let h := next_handle w in
  (Ok h, mk_world (self w) (clock w) (ticks w) (S h) (Arm h point_in_time :: trace w)).

(** Calling the callable [async_track_point_in_time] returned. *)
Definition unsub (h : handle) : M unit := emit (Cancel h).

(* ===================================================================== *)
(** * [_sort_timetable]                                                    *)
(* ===================================================================== *)

(** [list.sort(key=...)] is a stable sort that compares keys with [<] only.
    On a total preorder the result of a stable sort is unique, so it is
    given here by insertion: an event goes in front of the first event whose
    time is not smaller, which keeps events of equal time in their order. *)
Fixpoint insert_by_time (e : event) (l : list event) : list event :=
  match l with
  | [] => [e]
  | x :: rest =>
      if datetime.time_lt (StateEvent.time x) (StateEvent.time e)
      then x :: insert_by_time e rest
      else e :: x :: rest
  end.

Definition sort_by_time (l : list event) : list event :=
  foldr insert_by_time [] l.

(* ===================================================================== *)
(** * [class InputTimeTable]                                               *)
(* ===================================================================== *)

Module InputTimeTable.

(** [__init__] *)
Definition __init__ (config : gmap string string) : entity :=
  mk_entity config [] true None.

(** [from_yaml] (the entity id is the host's business) *)
Definition from_yaml (config : gmap string string) : entity :=
  mk_entity config [] false None.

(** ** The [state] property *)

(** The [for] loop of [state]: returns the value of [prev] when the loop is
    left, by [break] or by exhaustion. *)
Fixpoint state_loop (now : datetime.time) (prev : event) (events : list event) : event :=
  match events with
  | [] => prev
  | event :: rest =>
      if datetime.time_le (StateEvent.time prev) now
         && datetime.time_lt now (StateEvent.time event)
      then prev
      else state_loop now event rest
  end.

(** The property as a function of the timetable and of the time of day that
    [dt_util.now().time()] returns. *)
Definition state_at (timetable : list event) (now : datetime.time) : string :=
  match last timetable with
  | None => STATE_OFF
  | Some final =>
      StateEvent.state
        (state_loop now (StateEvent.mk MIDNIGHT (StateEvent.state final)) timetable)
  end.

(** The property itself; the clock is read only when there are events. *)
Definition state : M string :=
  s ← get_self;
  match _timetable s with
  | [] => mret STATE_OFF
  | _ :: _ =>
      now ← dt_util_now;
      mret (state_at (_timetable s) (datetime.time_of now))
  end.

(** ** Attribute format *)

Definition timetable_to_attribute (timetable : list event) : list attr_event :=
  map (λ event, mk_attr (datetime.isoformat (StateEvent.time event))
                        (StateEvent.state event))
      timetable.

(** [_timetable_to_attribute] *)
Definition _timetable_to_attribute : M (list attr_event) :=
  s ← get_self; mret (timetable_to_attribute (_timetable s)).

(** [state_attributes] *)
Definition state_attributes : M attributes :=
  s ← get_self;
  tt ← _timetable_to_attribute;
  mret (mk_attributes (editable s) tt).

(** [_sort_timetable] *)
Definition _sort_timetable : M unit :=
  s ← get_self; set_timetable (sort_by_time (_timetable s)).

(** The list comprehension of [_timetable_from_attribute]; [None] when a
    time string does not parse. *)
Definition events_from_attribute (timetable : list attr_event) : option (list event) :=
  mapM (λ ev, t ← datetime.fromisoformat (attr_time ev);
              Some (StateEvent.mk t (attr_state ev)))
       timetable.

(** [_timetable_from_attribute]: the assignment happens only when the whole
    comprehension has been evaluated. *)
Definition _timetable_from_attribute (timetable : list attr_event) : M unit :=
  match events_from_attribute timetable with
  | Some events => set_timetable events;; _sort_timetable
  | None => raise (ValueError "Invalid isoformat string")
  end.

(** ** Scheduling *)

(** The [for] loop of [_schedule_update]: [Some next_change] when the loop
    is left by [break], [None] when it runs into its [else] clause. *)
Fixpoint schedule_loop (time : datetime.time) (today : datetime.date)
    (prev : datetime.time) (events : list event) : option datetime.datetime :=
  match events with
  | [] => None
  | event :: rest =>
      if datetime.time_le prev time && datetime.time_lt time (StateEvent.time event)
      then Some (datetime.combine today (StateEvent.time event))
      else schedule_loop time today (StateEvent.time event) rest
  end.

(** The value of [next_change] for a timetable whose first event is [first]. *)
Definition next_change (first : event) (timetable : list event)
    (now : datetime.datetime) : datetime.datetime :=
  let time := datetime.time_of now in
  let today := datetime.date_of now in
  match schedule_loop time today MIDNIGHT timetable with
  | Some next_change => next_change
  | None => datetime.combine (datetime.add_days today 1) (StateEvent.time first)
  end.

(** [_schedule_update] *)
Definition _schedule_update : M unit :=
  s ← get_self;
  match _event_unsub s with
  | Some h => unsub h;; set_event_unsub None
  | None => mret ()
  end;;
  match _timetable s with
  | [] => mret ()
  | [_] => mret ()
  | first :: _ :: _ =>
      now ← dt_util_now;
      h ← async_track_point_in_time (next_change first (_timetable s) now);
      set_event_unsub (Some h)
  end.

(** [async_write_ha_state]: the host reads [state] and [state_attributes]
    and publishes them. *)
Definition async_write_ha_state : M unit :=
  st ← state;
  attrs ← state_attributes;
  emit (WriteState st attrs).

(** [_update_state] *)
Definition _update_state : M unit :=
  _schedule_update;; async_write_ha_state.

(** [async_added_to_hass]; [last_timetable] is
    [state.attributes.get(ATTR_TIMETABLE)] of the restored state, [None] when
    there is no restored state or no such attribute. *)
Definition async_added_to_hass (last_timetable : option (list attr_event)) : M unit :=
  match last_timetable with
  | Some (ev :: rest) => _timetable_from_attribute (ev :: rest)
  | Some [] => mret ()
  | None => mret ()
  end;;
  _update_state.

(** ** The services *)

(** The [for] loop of [async_set]: [Some] of the updated list when an event
    with that time was found (its state is assigned in place), [None] when
    the loop runs into its [else] clause. *)
Fixpoint set_loop (time : datetime.time) (state : string) (events : list event)
    : option (list event) :=
  match events with
  | [] => None
  | event :: rest =>
      if datetime.time_eq (StateEvent.time event) time
      then Some (StateEvent.mk (StateEvent.time event) state :: rest)
      else option_map (cons event) (set_loop time state rest)
  end.

(** [async_set] *)
Definition async_set (time : datetime.time) (state : string) : M unit :=
  s ← get_self;
  match set_loop time state (_timetable s) with
  | Some events => set_timetable events
  | None =>
      set_timetable (_timetable s ++ [StateEvent.mk time state]);;
      _sort_timetable
  end;;
  _update_state.

(** The [for] loop of [async_unset]: [Some] of the list without the first
    event with that time, [None] when there is none. *)
Fixpoint unset_loop (time : datetime.time) (events : list event) : option (list event) :=
  match events with
  | [] => None
  | event :: rest =>
      if datetime.time_eq (StateEvent.time event) time
      then Some rest
      else option_map (cons event) (unset_loop time rest)
  end.

(** [async_unset] *)
Definition async_unset (time : datetime.time) : M unit :=
  s ← get_self;
  match unset_loop time (_timetable s) with
  | Some events => set_timetable events
  | None =>
      raise (Invalid ("The time " ++ datetime.isoformat time ++ " doesn't exist"))
  end;;
  _update_state.

(** [async_reset] *)
Definition async_reset : M unit :=
  set_timetable [];; _update_state.

(** The guard of [async_reconfig]:
    [len(timetable) > len({event[ATTR_TIME] for event in timetable})]. *)
Definition has_duplicate_time (timetable : list conf_event) : bool :=
  bool_decide
    (size (list_to_set (map conf_time timetable) : gset datetime.time)
     < length timetable).

(** [async_reconfig] *)
Definition async_reconfig (timetable : list conf_event) : M unit :=
  (if has_duplicate_time timetable
   then raise (Invalid "The same time is not allowed more than once")
   else mret ());;
  set_timetable
    (map (λ event, StateEvent.mk (conf_time event) (conf_state event)) timetable);;
  _sort_timetable;;
  _update_state.

(** [async_update_config] *)
Definition async_update_config (config : gmap string string) : M unit :=
  set_config config;; _update_state.

(** The class overrides neither [async_will_remove_from_hass] nor registers
    anything with [async_on_remove]: when the host removes the entity, none
    of the entity's own code runs, and the callable in [_event_unsub] is not
    called. *)
Definition async_will_remove_from_hass : M unit := mret ().

(** The [name] property: [self._config.get(CONF_NAME)], [None] when the
    configuration has no name. *)
Definition name (s : entity) : option string := _config s !! CONF_NAME.

End InputTimeTable.

(* ===================================================================== *)
(** * [class TimeTableStorageCollection]                                   *)
(* ===================================================================== *)

Module TimeTableStorageCollection.

Section update.

(** [UPDATE_SCHEMA = vol.Schema(UPDATE_FIELDS)]: calling it returns the
    validated data or raises; what it accepts is voluptuous's business. *)
Variable UPDATE_SCHEMA : gmap string string → Result (gmap string string).

(** [_update_data]: the schema is called for its check only, and the
    result is [{**data, **update_data}]. *)
Definition _update_data (data update_data : gmap string string)
    : Result (gmap string string) :=
  match UPDATE_SCHEMA update_data with
  | Raise e => Raise e
  | Ok _ => Ok (update_data ∪ data)
  end.

End update.

End TimeTableStorageCollection.

(* ===================================================================== *)
(** * The life of an entity                                                *)
(* ===================================================================== *)

(** What can happen to an entity once it is constructed: the host adds it,
    a service is called, its timer fires, the host removes it. *)
Inductive call :=
| AddedToHass (last_timetable : option (list attr_event))
| ServiceSet (time : datetime.time) (state : string)
| ServiceUnset (time : datetime.time)
| ServiceReset
| ServiceReconfig (timetable : list conf_event)
| UpdateConfig (config : gmap string string)
| TimerFires (h : handle)
| Remove.

(** A one-shot timer fires only while it is outstanding; the host then
    forgets it and runs the action it was armed with, [_update_state]. *)
Definition timer_fires (h : handle) : M unit := λ w,
  if bool_decide (h ∈ (outstanding (trace w)).*1)
  then (emit (Fire h);; InputTimeTable._update_state) w
  else (Ok (), w).

Definition perform (c : call) : M unit :=
  match c with
  | AddedToHass last_timetable => InputTimeTable.async_added_to_hass last_timetable
  | ServiceSet time state => InputTimeTable.async_set time state
  | ServiceUnset time => InputTimeTable.async_unset time
  | ServiceReset => InputTimeTable.async_reset
  | ServiceReconfig timetable => InputTimeTable.async_reconfig timetable
  | UpdateConfig config => InputTimeTable.async_update_config config
  | TimerFires h => timer_fires h
  | Remove => InputTimeTable.async_will_remove_from_hass
  end.

(** An exception goes to the caller; the entity lives on in the world the
    call left behind. *)
Definition after (c : call) (w : World) : World := (perform c w).2.

Definition after_all (cs : list call) (w : World) : World :=
  fold_left (λ w c, after c w) cs w.

(** A freshly constructed entity in a host that has done nothing yet. *)
Definition initial (config : gmap string string) (clock : nat → datetime.datetime) : World :=
  mk_world (InputTimeTable.__init__ config) clock 0 0 [].

(** ** Predicates the properties are stated with *)

Definition times (l : list event) : list datetime.time := map StateEvent.time l.

(** Strictly ascending by time: sorted, and no time twice. *)
Definition strictly_ascending (l : list event) : Prop :=
  StronglySorted (λ a b, datetime.time_lt (StateEvent.time a) (StateEvent.time b) = true) l.

(** Ascending by time, equal times allowed. *)
Definition ascending (l : list event) : Prop :=
  StronglySorted (λ a b, datetime.time_le (StateEvent.time a) (StateEvent.time b) = true) l.

(** At every point of a history at most one timer is outstanding. *)
Fixpoint at_most_one_timer (tr : list host_event) : Prop :=
  match tr with
  | [] => True
  | ev :: older =>
      (length (outstanding (ev :: older)) ≤ 1)%nat ∧ at_most_one_timer older
  end.

(** Whenever a timer is armed, no other timer is outstanding. *)
Fixpoint armed_only_when_none (tr : list host_event) : Prop :=
  match tr with
  | [] => True
  | Arm _ _ :: older => outstanding older = [] ∧ armed_only_when_none older
  | _ :: older => armed_only_when_none older
  end.

(** ** Values used in the examples *)

(** The time of day [h:m:s], without microseconds. *)
Definition hms (h m s : N) : datetime.time := datetime.mk_time h m s 0.

(** The state carried into the event that follows [pre]: the state of the
    last event of [pre], or, in front of the first event, the state
    [wrapped] that wraps around from the end of the day. *)
Definition carried (wrapped : string) (pre : list event) : string :=
  match last pre with
  | Some p => StateEvent.state p
  | None => wrapped
  end.

(** The boundary in front of the event that follows [pre]. *)
Definition boundary_before (pre : list event) : datetime.time :=
  match last pre with
  | Some p => StateEvent.time p
  | None => MIDNIGHT
  end.

(** ** Timer bookkeeping *)

(** The trace once [_schedule_update] has called the callable it kept. *)
Definition cancel_trace (s : entity) (tr : list host_event) : list host_event :=
  match _event_unsub s with
  | Some h => Cancel h :: tr
  | None => tr
  end.

(** Every outstanding timer is the one whose callable the entity keeps. *)
Definition timer_tracked (w : World) : Prop :=
  ∀ h p, (h, p) ∈ outstanding (trace w) → _event_unsub (self w) = Some h.

(** The world [_schedule_update] leaves behind. *)
Definition scheduled (w : World) : World :=
  let s := self w in
  match _timetable s with
  | first :: _ :: _ =>
      mk_world
        (mk_entity (_config s) (_timetable s) (editable s) (Some (next_handle w)))
        (clock w) (S (ticks w)) (S (next_handle w))
        (Arm (next_handle w)
             (InputTimeTable.next_change first (_timetable s) (clock w (ticks w)))
         :: cancel_trace s (trace w))
  | _ =>
      mk_world
        (mk_entity (_config s) (_timetable s) (editable s) None)
        (clock w) (ticks w) (next_handle w)
        (cancel_trace s (trace w))
  end.

(** ** The worlds the methods leave behind *)

Definition with_timetable (l : list event) (w : World) : World :=
  let s := self w in
  mk_world (mk_entity (_config s) l (editable s) (_event_unsub s))
           (clock w) (ticks w) (next_handle w) (trace w).

Definition with_config (c : gmap string string) (w : World) : World :=
  let s := self w in
  mk_world (mk_entity c (_timetable s) (editable s) (_event_unsub s))
           (clock w) (ticks w) (next_handle w) (trace w).

(** What [async_write_ha_state] publishes in a world. *)
Definition published (w : World) : host_event :=
  let s := self w in
  WriteState
    (InputTimeTable.state_at (_timetable s) (datetime.time_of (clock w (ticks w))))
    (mk_attributes (editable s) (InputTimeTable.timetable_to_attribute (_timetable s))).

(** The world [async_write_ha_state] leaves behind. *)
Definition written (w : World) : World :=
  mk_world (self w) (clock w)
           (match _timetable (self w) with [] => ticks w | _ :: _ => S (ticks w) end)
           (next_handle w)
           (published w :: trace w).

(** The world [_update_state] leaves behind. *)
Definition updated (w : World) : World := written (scheduled w).

(** A world with a given timetable and a clock that shows [now], in which
    nothing has happened yet. *)
Definition world_at (timetable : list event) (now : datetime.datetime) : World :=
  mk_world (mk_entity ∅ timetable true None) (λ _, now) 0 0 [].

(** Calls that load a timetable from a restored state. *)
Definition restores (c : call) : bool :=
  match c with
  | AddedToHass _ => true
  | _ => false
  end.

(** The timetable [async_set] leaves behind. *)
Definition set_result (time : datetime.time) (state : string) (l : list event) : list event :=
  match InputTimeTable.set_loop time state l with
  | Some events => events
  | None => sort_by_time (l ++ [StateEvent.mk time state])
  end.

(** The events of the [reconfig] service data as state events. *)
Definition events_of_conf (timetable : list conf_event) : list event :=
  map (λ event, StateEvent.mk (conf_time event) (conf_state event)) timetable.

(** The timetable a call leaves behind, given the one it finds. *)
Definition timetable_after (c : call) (l : list event) : list event :=
  match c with
  | AddedToHass (Some (ev :: rest)) =>
      match InputTimeTable.events_from_attribute (ev :: rest) with
      | Some events => sort_by_time events
      | None => l
      end
  | AddedToHass _ => l
  | ServiceSet time state => set_result time state l
  | ServiceUnset time => default l (InputTimeTable.unset_loop time l)
  | ServiceReset => []
  | ServiceReconfig timetable =>
      if InputTimeTable.has_duplicate_time timetable then l
      else sort_by_time (events_of_conf timetable)
  | UpdateConfig _ => l
  | TimerFires _ => l
  | Remove => l
  end.

(** The timer discipline of the entity: the one outstanding timer, if any,
    is the kept one; never more than one was outstanding; and none was
    outstanding whenever one was armed. *)
Definition timer_discipline (w : World) : Prop :=
  timer_tracked w
  ∧ at_most_one_timer (trace w)
  ∧ armed_only_when_none (trace w).

(** The host records that a timer fired. *)
Definition fired (h : handle) (w : World) : World :=
  mk_world (self w) (clock w) (ticks w) (next_handle w) (Fire h :: trace w).

(** ** Vocabulary of the further properties *)

(** The number of states published in a history. *)
Fixpoint publications (tr : list host_event) : nat :=
  match tr with
  | [] => 0
  | WriteState _ _ :: older => S (publications older)
  | _ :: older => publications older
  end.

(** The timetable after a sequence of calls, given the one it starts from. *)
Definition timetable_after_all (cs : list call) (l : list event) : list event :=
  fold_left (λ l c, timetable_after c l) cs l.

(** What the service schemas let through, once [cv.time] has produced a
    time: [remove_micros_and_tz] has removed the microseconds, and
    [vol.In([STATE_ON, STATE_OFF])] has checked the state. *)
Definition passes_schema (time : datetime.time) (state : string) : Prop :=
  datetime.valid time
  ∧ datetime.microsecond time = 0%N
  ∧ state ∈ [STATE_ON; STATE_OFF].

(** Calls whose data went through the schema of their service
    ([SERVICE_SET_SCHEMA], [SERVICE_UNSET_SCHEMA], [SERVICE_RESET_SCHEMA],
    [SERVICE_RECONFIG_SCHEMA]); restoring is not a service. *)
Definition from_services (c : call) : Prop :=
  match c with
  | AddedToHass _ => False
  | ServiceSet time state => passes_schema time state
  | ServiceReconfig timetable =>
      Forall (λ event, passes_schema (conf_time event) (conf_state event)) timetable
  | _ => True
  end.

(** A timetable all of whose events could have come through the services. *)
Definition schema_shaped (l : list event) : Prop :=
  Forall (λ e, passes_schema (StateEvent.time e) (StateEvent.state e)) l.

(** A call that ends in [_update_state] when it does not raise: every call
    but the removal, and the firing of a timer that is not outstanding. *)
Definition reaches_update (c : call) (w : World) : Prop :=
  match c with
  | Remove => False
  | TimerFires h => h ∈ (outstanding (trace w)).*1
  | _ => True
  end.

(** A time string that begins with a lower-case ASCII letter.  No
    [time.fromisoformat] reads such a string, with or without a UTC offset
    behind it: the first thing it wants is a digit (or, from Python 3.11
    on, a capital [T]), and it raises [ValueError] there. *)
Definition begins_with_lowercase (s : string) : bool :=
  match s with
  | EmptyString => false
  | String c _ => (97 <=? N_of_ascii c)%N && (N_of_ascii c <=? 122)%N
  end.

(* ===================================================================== *)
(** * The order on times                                                   *)
(* ===================================================================== *)

Section time_order.

Import datetime.

Lemma time_ext (a b : time) :
  a = b ↔
  hour a = hour b ∧ minute a = minute b ∧ second a = second b
  ∧ microsecond a = microsecond b.
Proof.
  split; [intros ->; done|].
  destruct a, b; simpl; intros (-> & -> & -> & ->); done.
Qed.

Lemma cmp_Lt (a b : time) : cmp a b = Lt ↔ before a b.
Proof.
  unfold cmp, before.
  destruct (N.compare_spec (hour a) (hour b));
    destruct (N.compare_spec (minute a) (minute b));
    destruct (N.compare_spec (second a) (second b));
    destruct (N.compare_spec (microsecond a) (microsecond b));
    split; intros; try done; try lia.
Qed.

Lemma cmp_Gt (a b : time) : cmp a b = Gt ↔ before b a.
Proof.
  unfold cmp, before.
  destruct (N.compare_spec (hour a) (hour b));
    destruct (N.compare_spec (minute a) (minute b));
    destruct (N.compare_spec (second a) (second b));
    destruct (N.compare_spec (microsecond a) (microsecond b));
    split; intros; try done; try lia.
Qed.

Lemma cmp_Eq (a b : time) : cmp a b = Eq ↔ a = b.
Proof.
  rewrite time_ext. unfold cmp.
  destruct (N.compare_spec (hour a) (hour b));
    destruct (N.compare_spec (minute a) (minute b));
    destruct (N.compare_spec (second a) (second b));
    destruct (N.compare_spec (microsecond a) (microsecond b));
    split; intros; try done; try lia.
Qed.

Lemma time_lt_iff (a b : time) : time_lt a b = true ↔ before a b.
Proof. rewrite <- cmp_Lt. unfold time_lt. destruct (cmp a b); split; done. Qed.

Lemma time_lt_false (a b : time) : time_lt a b = false ↔ ¬ before a b.
Proof. rewrite <- time_lt_iff. destruct (time_lt a b); split; done. Qed.

Lemma time_le_false (a b : time) : time_le a b = false ↔ before b a.
Proof. rewrite <- cmp_Gt. unfold time_le. destruct (cmp a b); split; done. Qed.

Lemma time_le_iff (a b : time) : time_le a b = true ↔ ¬ before b a.
Proof. rewrite <- time_le_false. destruct (time_le a b); split; done. Qed.

Lemma time_eq_iff (a b : time) : time_eq a b = true ↔ a = b.
Proof. rewrite <- cmp_Eq. unfold time_eq. destruct (cmp a b); split; done. Qed.

Lemma time_eq_false (a b : time) : time_eq a b = false ↔ a ≠ b.
Proof. rewrite <- time_eq_iff. destruct (time_eq a b); split; done. Qed.

End time_order.

(** Turns comparisons of times into linear arithmetic on their fields. *)
Ltac time_order :=
  rewrite ?time_lt_iff, ?time_lt_false, ?time_le_iff, ?time_le_false,
    ?time_eq_iff, ?time_eq_false, ?time_ext in *;
  unfold datetime.before in *; simpl in *; lia.

Lemma time_lt_trans (a b c : datetime.time) :
  datetime.time_lt a b = true → datetime.time_lt b c = true →
  datetime.time_lt a c = true.
Proof. time_order. Qed.

Lemma time_le_trans (a b c : datetime.time) :
  datetime.time_le a b = true → datetime.time_le b c = true →
  datetime.time_le a c = true.
Proof. time_order. Qed.

Lemma time_lt_le (a b : datetime.time) :
  datetime.time_lt a b = true → datetime.time_le a b = true.
Proof. time_order. Qed.

Lemma time_lt_ne (a b : datetime.time) :
  datetime.time_lt a b = true → a ≠ b.
Proof. intros H ->. time_order. Qed.

Lemma time_le_ne_lt (a b : datetime.time) :
  datetime.time_le a b = true → a ≠ b → datetime.time_lt a b = true.
Proof. time_order. Qed.

Lemma time_le_lt_trans (a b c : datetime.time) :
  datetime.time_le a b = true → datetime.time_lt b c = true →
  datetime.time_lt a c = true.
Proof. time_order. Qed.

Lemma time_not_lt_le (a b : datetime.time) :
  datetime.time_lt a b = false → datetime.time_le b a = true.
Proof. time_order. Qed.

Lemma MIDNIGHT_le (now : datetime.time) : datetime.time_le MIDNIGHT now = true.
Proof. unfold MIDNIGHT. time_order. Qed.

(* ===================================================================== *)
(** * [_sort_timetable] is a stable sort                                   *)
(* ===================================================================== *)

Section sorting.

Implicit Types (e x : event) (l : list event).

Lemma insert_by_time_perm e l : insert_by_time e l ≡ₚ e :: l.
Proof.
  induction l as [|x l IH]; simpl; [done|].
  destruct (datetime.time_lt _ _); [|done].
  rewrite IH. apply Permutation_swap.
Qed.

Lemma sort_by_time_perm l : sort_by_time l ≡ₚ l.
Proof.
  induction l as [|x l IH]; simpl; [done|].
  rewrite insert_by_time_perm. by rewrite IH.
Qed.

Lemma sort_by_time_length l : length (sort_by_time l) = length l.
Proof. apply Permutation_length, sort_by_time_perm. Qed.

Lemma insert_by_time_ascending e l :
  ascending l → ascending (insert_by_time e l).
Proof.
  unfold ascending. induction l as [|x l IH]; simpl; intros Hl.
  - repeat constructor.
  - apply StronglySorted_cons in Hl as [Hx Hl].
    destruct (datetime.time_lt _ _) eqn:Hlt.
    + apply StronglySorted_cons. split; [|by apply IH].
      rewrite insert_by_time_perm. constructor; [|done].
      by apply time_lt_le.
    + apply time_not_lt_le in Hlt.
      apply StronglySorted_cons. split.
      * constructor; [done|].
        eapply Forall_impl; [exact Hx|]. simpl. intros y Hy.
        by eapply time_le_trans.
      * by apply StronglySorted_cons.
Qed.

Lemma sort_by_time_ascending l : ascending (sort_by_time l).
Proof.
  induction l as [|x l IH]; simpl; [constructor|].
  by apply insert_by_time_ascending.
Qed.

Lemma strictly_ascending_ascending l : strictly_ascending l → ascending l.
Proof.
  unfold strictly_ascending, ascending.
  induction 1 as [|x l Hl IH Hx]; constructor; [done|].
  eapply Forall_impl; [exact Hx|]. intros y. apply time_lt_le.
Qed.

Lemma strictly_ascending_NoDup l : strictly_ascending l → NoDup (times l).
Proof.
  unfold strictly_ascending, times.
  induction 1 as [|x l Hl IH Hx]; simpl; constructor; [|done].
  intros Hin. apply list_elem_of_fmap in Hin as (y & Heq & Hy).
  rewrite Forall_forall in Hx. specialize (Hx y Hy).
  by apply time_lt_ne in Hx.
Qed.

Lemma ascending_NoDup_strict l :
  ascending l → NoDup (times l) → strictly_ascending l.
Proof.
  unfold strictly_ascending, ascending, times.
  induction 1 as [|x l Hl IH Hx]; simpl; intros Hnd; [constructor|].
  apply NoDup_cons in Hnd as [Hnotin Hnd].
  constructor; [by apply IH|].
  rewrite Forall_forall in Hx |- *. intros y Hy.
  apply time_le_ne_lt; [by apply Hx|].
  intros Heq. apply Hnotin. rewrite Heq.
  apply list_elem_of_fmap. by exists y.
Qed.

Lemma sort_by_time_strict l :
  NoDup (times l) → strictly_ascending (sort_by_time l).
Proof.
  intros Hnd. apply ascending_NoDup_strict; [apply sort_by_time_ascending|].
  unfold times. by rewrite sort_by_time_perm.
Qed.

(** Sorting a timetable that is in order changes nothing. *)
Lemma sort_by_time_id l : ascending l → sort_by_time l = l.
Proof.
  unfold ascending. induction 1 as [|x l Hl IH Hx]; simpl; [done|].
  rewrite IH. destruct l as [|y l']; simpl; [done|].
  apply Forall_cons in Hx as [Hxy _].
  assert (datetime.time_lt (StateEvent.time y) (StateEvent.time x) = false)
    as -> by time_order.
  done.
Qed.

(** Stability: the events that share a time keep their relative order. *)
Lemma insert_by_time_stable (t : datetime.time) e l :
  filter (λ y, StateEvent.time y = t) (insert_by_time e l)
  = filter (λ y, StateEvent.time y = t) (e :: l).
Proof.
  induction l as [|x l IH]; simpl; [done|].
  destruct (datetime.time_lt _ _) eqn:Hlt; [|done].
  rewrite filter_cons, IH, !filter_cons.
  apply time_lt_ne in Hlt.
  repeat case_decide; try done; congruence.
Qed.

Lemma sort_by_time_stable (t : datetime.time) l :
  filter (λ y, StateEvent.time y = t) (sort_by_time l)
  = filter (λ y, StateEvent.time y = t) l.
Proof.
  induction l as [|x l IH]; simpl; [done|].
  rewrite insert_by_time_stable, !filter_cons, IH. done.
Qed.

End sorting.

(* ===================================================================== *)
(** * The state at an instant                                              *)
(* ===================================================================== *)

Section state_at_instant.

Import InputTimeTable.

Implicit Types (now : datetime.time) (prev e : event) (pre post events : list event).

(** The first half of the loop's test, [prev.time <= now], never fails: the
    loop is left at the first event whose time is after [now]. *)
Lemma state_loop_break now prev pre e post :
  datetime.time_le (StateEvent.time prev) now = true →
  Forall (λ x, datetime.time_le (StateEvent.time x) now = true) pre →
  datetime.time_lt now (StateEvent.time e) = true →
  state_loop now prev (pre ++ e :: post) = default prev (last pre).
Proof.
  revert prev. induction pre as [|x pre IH]; simpl; intros prev Hprev Hpre He.
  - by rewrite Hprev, He.
  - apply Forall_cons in Hpre as [Hx Hpre].
    assert (datetime.time_lt now (StateEvent.time x) = false) as -> by time_order.
    rewrite andb_false_r, (IH x Hx Hpre He).
    rewrite last_cons. by destruct (last pre).
Qed.

Lemma state_loop_exhaust now prev events :
  Forall (λ x, datetime.time_le (StateEvent.time x) now = true) events →
  state_loop now prev events = default prev (last events).
Proof.
  revert prev. induction events as [|x events IH]; simpl; intros prev Hall; [done|].
  apply Forall_cons in Hall as [Hx Hall].
  assert (datetime.time_lt now (StateEvent.time x) = false) as -> by time_order.
  rewrite andb_false_r, (IH x Hall).
  rewrite last_cons. by destruct (last events).
Qed.

Lemma ascending_all_le now events final :
  ascending events → last events = Some final →
  datetime.time_le (StateEvent.time final) now = true →
  Forall (λ x, datetime.time_le (StateEvent.time x) now = true) events.
Proof.
  unfold ascending. intros Hs Hlast Hnow.
  apply last_Some in Hlast as [front ->].
  apply StronglySorted_app in Hs as (Hcross & _ & _).
  apply Forall_app. split; [|by constructor].
  apply Forall_forall. intros x Hx.
  eapply time_le_trans; [|exact Hnow].
  apply Hcross; [done|]. by apply list_elem_of_singleton.
Qed.

Lemma boundary_all_le now pre :
  ascending pre →
  datetime.time_le (boundary_before pre) now = true →
  Forall (λ x, datetime.time_le (StateEvent.time x) now = true) pre.
Proof.
  unfold boundary_before. intros Hs Hnow.
  destruct (last pre) as [p|] eqn:Hlast.
  - by eapply ascending_all_le.
  - apply last_None in Hlast as ->. constructor.
Qed.

Lemma state_property (w : World) :
  state w =
  (Ok (state_at (_timetable (self w)) (datetime.time_of (clock w (ticks w)))),
   match _timetable (self w) with
   | [] => w
   | _ :: _ => mk_world (self w) (clock w) (S (ticks w)) (next_handle w) (trace w)
   end).
Proof.
  unfold state, mbind, M_bind, get_self. simpl.
  destruct (_timetable (self w)); done.
Qed.

(** C1. State at an instant.  The [state] property returns [state_at] of the
    timetable and the time of day the clock shows.  An empty timetable is
    OFF.  In an ascending timetable, an instant with
    [prev <= now < event.time], where [prev] is the boundary in front of
    [event] (midnight in front of the first event), has the state carried
    into [event]: the state of the event before it, or the last event's
    state in front of the first event; an instant on or after the last
    event's time has the last event's state.  With events 08:00 ON and
    20:00 OFF the state is OFF at 07:59:59, ON at 08:00:00 and 19:59:59, OFF
    at 20:00:00; a single event 12:00 ON gives ON at every instant. *)
Theorem state_at_instant :
  (∀ w, (state w).1 =
        Ok (state_at (_timetable (self w)) (datetime.time_of (clock w (ticks w)))))
  ∧ (∀ now, state_at [] now = STATE_OFF)
  ∧ (∀ pre e post final now,
       ascending (pre ++ e :: post) →
       last (e :: post) = Some final →
       datetime.time_le (boundary_before pre) now = true →
       datetime.time_lt now (StateEvent.time e) = true →
       state_at (pre ++ e :: post) now = carried (StateEvent.state final) pre)
  ∧ (∀ events final now,
       ascending events →
       last events = Some final →
       datetime.time_le (StateEvent.time final) now = true →
       state_at events now = StateEvent.state final)
  ∧ (let events := [StateEvent.mk (hms 8 0 0) STATE_ON;
                    StateEvent.mk (hms 20 0 0) STATE_OFF] in
     state_at events (hms 7 59 59) = STATE_OFF
     ∧ state_at events (hms 8 0 0) = STATE_ON
     ∧ state_at events (hms 19 59 59) = STATE_ON
     ∧ state_at events (hms 20 0 0) = STATE_OFF)
  ∧ (∀ now, state_at [StateEvent.mk (hms 12 0 0) STATE_ON] now = STATE_ON).
Proof.
  split; [intros w; by rewrite state_property|].
  split; [done|].
  split.
  { intros pre e post final now Hs Hlast Hprev He.
    assert (last (pre ++ e :: post) = Some final) as Hl.
    { rewrite last_app, Hlast. done. }
    unfold state_at. rewrite Hl.
    rewrite state_loop_break; [| apply MIDNIGHT_le | | done].
    - unfold carried. by destruct (last pre).
    - apply boundary_all_le; [|done].
      unfold ascending in *. by apply StronglySorted_app_1_l in Hs. }
  split.
  { intros events final now Hs Hlast Hnow.
    unfold state_at. rewrite Hlast.
    rewrite state_loop_exhaust by (by eapply ascending_all_le).
    by rewrite Hlast. }
  split; [by vm_compute|].
  intros now. unfold state_at. simpl.
  by destruct (_ && _).
Qed.

(** The general clauses of C1 at 12:30 and at 21:00 in the timetable
    08:00 ON, 20:00 OFF. *)
Lemma state_at_instant_witness :
  state_at [StateEvent.mk (hms 8 0 0) STATE_ON; StateEvent.mk (hms 20 0 0) STATE_OFF]
    (hms 12 30 0) = STATE_ON
  ∧ state_at [StateEvent.mk (hms 8 0 0) STATE_ON; StateEvent.mk (hms 20 0 0) STATE_OFF]
      (hms 21 0 0) = STATE_OFF.
Proof.
  destruct state_at_instant as (_ & _ & Hbreak & Hlast & _).
  split.
  - apply (Hbreak [StateEvent.mk (hms 8 0 0) STATE_ON]
             (StateEvent.mk (hms 20 0 0) STATE_OFF) []
             (StateEvent.mk (hms 20 0 0) STATE_OFF) (hms 12 30 0)).
    + repeat constructor.
    + reflexivity.
    + reflexivity.
    + reflexivity.
  - apply (Hlast [StateEvent.mk (hms 8 0 0) STATE_ON;
                  StateEvent.mk (hms 20 0 0) STATE_OFF]
             (StateEvent.mk (hms 20 0 0) STATE_OFF) (hms 21 0 0)).
    + repeat constructor.
    + reflexivity.
    + reflexivity.
Defined.

End state_at_instant.

(* ===================================================================== *)
(** * Scheduling the next transition                                       *)
(* ===================================================================== *)

Section scheduling.

Import InputTimeTable.

Implicit Types (time : datetime.time) (e : event) (pre post events : list event).

Lemma schedule_loop_break time today prev pre e post :
  datetime.time_le prev time = true →
  Forall (λ x, datetime.time_le (StateEvent.time x) time = true) pre →
  datetime.time_lt time (StateEvent.time e) = true →
  schedule_loop time today prev (pre ++ e :: post)
  = Some (datetime.combine today (StateEvent.time e)).
Proof.
  revert prev. induction pre as [|x pre IH]; simpl; intros prev Hprev Hpre He.
  - by rewrite Hprev, He.
  - apply Forall_cons in Hpre as [Hx Hpre].
    assert (datetime.time_lt time (StateEvent.time x) = false) as -> by time_order.
    rewrite andb_false_r. by apply IH.
Qed.

Lemma schedule_loop_exhaust time today prev events :
  Forall (λ x, datetime.time_le (StateEvent.time x) time = true) events →
  schedule_loop time today prev events = None.
Proof.
  revert prev. induction events as [|x events IH]; simpl; intros prev Hall; [done|].
  apply Forall_cons in Hall as [Hx Hall].
  assert (datetime.time_lt time (StateEvent.time x) = false) as -> by time_order.
  rewrite andb_false_r. by apply IH.
Qed.

(** Either every event's time has passed, or there is a first event whose
    time is still ahead. *)
Lemma first_ahead time events :
  Forall (λ x, datetime.time_le (StateEvent.time x) time = true) events
  ∨ ∃ pre e post,
      events = pre ++ e :: post
      ∧ Forall (λ x, datetime.time_le (StateEvent.time x) time = true) pre
      ∧ datetime.time_lt time (StateEvent.time e) = true.
Proof.
  induction events as [|x events IH]; [left; constructor|].
  destruct (datetime.time_lt time (StateEvent.time x)) eqn:Hx.
  - right. exists [], x, events. repeat split; [constructor | done].
  - apply time_not_lt_le in Hx.
    destruct IH as [Hall | (pre & e & post & -> & Hpre & He)].
    + left. by constructor.
    + right. exists (x :: pre), e, post. repeat split; [by constructor | done].
Qed.

(** In an ascending timetable the first event ahead is the earliest one. *)
Lemma first_ahead_earliest time pre e post e' :
  ascending (pre ++ e :: post) →
  Forall (λ x, datetime.time_le (StateEvent.time x) time = true) pre →
  e' ∈ pre ++ e :: post →
  datetime.time_lt time (StateEvent.time e') = true →
  datetime.time_le (StateEvent.time e) (StateEvent.time e') = true.
Proof.
  unfold ascending. intros Hs Hpre Hin He'.
  apply StronglySorted_app in Hs as (_ & _ & Hs).
  apply StronglySorted_cons in Hs as [Hpost _].
  apply elem_of_app in Hin as [Hin | Hin].
  - rewrite Forall_forall in Hpre. specialize (Hpre _ Hin). time_order.
  - apply elem_of_cons in Hin as [-> | Hin]; [time_order|].
    rewrite Forall_forall in Hpost. by apply Hpost.
Qed.

Lemma schedule_update_run (w : World) :
  _schedule_update w = (Ok (), scheduled w).
Proof.
  destruct w as [[cfg tt ed unsub] clk n nh tr].
  destruct unsub as [h|]; destruct tt as [|a [|b l]]; reflexivity.
Qed.

Lemma outstanding_cancel_trace (w : World) :
  timer_tracked w → outstanding (cancel_trace (self w) (trace w)) = [].
Proof.
  unfold timer_tracked, cancel_trace. intros Htr.
  destruct (_event_unsub (self w)) as [h|] eqn:Hu; simpl.
  - destruct (filter _ _) as [|[h' p] rest] eqn:Hf; [done|].
    assert ((h', p) ∈ filter (λ t : handle * datetime.datetime, t.1 ≠ h)
                         (outstanding (trace w))) as Hin
      by (rewrite Hf; by left).
    apply list_elem_of_filter in Hin as [Hne Hin]. simpl in Hne.
    specialize (Htr _ _ Hin). congruence.
  - destruct (outstanding (trace w)) as [|[h' p] rest] eqn:Ho; [done|].
    discriminate (Htr h' p). by left.
Qed.

(** What [next_change] is, for an ascending timetable. *)
Lemma next_change_spec first events (now : datetime.datetime) :
  ascending events →
  head events = Some first →
  let time := datetime.time_of now in
  let today := datetime.date_of now in
  (∃ e, e ∈ events
        ∧ datetime.time_lt time (StateEvent.time e) = true
        ∧ (∀ e', e' ∈ events → datetime.time_lt time (StateEvent.time e') = true →
                 datetime.time_le (StateEvent.time e) (StateEvent.time e') = true)
        ∧ next_change first events now = datetime.combine today (StateEvent.time e))
  ∨ ((∀ e, e ∈ events → datetime.time_le (StateEvent.time e) time = true)
     ∧ next_change first events now
       = datetime.combine (datetime.add_days today 1) (StateEvent.time first)).
Proof.
  intros Hs Hhead time today. unfold next_change. fold time today.
  destruct (first_ahead time events) as [Hall | (pre & e & post & -> & Hpre & He)].
  - right. rewrite schedule_loop_exhaust by done.
    split; [|done]. by apply Forall_forall.
  - left. exists e. rewrite schedule_loop_break; [| apply MIDNIGHT_le | done | done].
    split; [apply elem_of_app; right; by left|].
    split; [done|]. split; [|done].
    intros e' Hin He'. by eapply first_ahead_earliest.
Qed.

(** C2. Scheduling the next transition.  In a world whose only outstanding
    timer, if any, is the one the entity keeps the callable of:
    with fewer than two events [_schedule_update] calls the kept callable,
    forgets it and arms nothing, so that no timer is outstanding; with two
    or more events, in ascending order, it leaves exactly one outstanding
    timer, armed for today at the time of the earliest event whose time is
    strictly after the current time of day, or, when every event's time has
    passed, for tomorrow at the first event's time.  With events 06:00 ON and
    18:00 OFF the target is today 18:00 at 09:00 and tomorrow 06:00 at
    19:00. *)
Theorem next_transition_scheduling :
  (∀ w, timer_tracked w →
        length (_timetable (self w)) < 2 →
        (_schedule_update w).1 = Ok ()
        ∧ trace (_schedule_update w).2 = cancel_trace (self w) (trace w)
        ∧ outstanding (trace (_schedule_update w).2) = []
        ∧ _event_unsub (self (_schedule_update w).2) = None)
  ∧ (∀ w first, timer_tracked w →
        ascending (_timetable (self w)) →
        head (_timetable (self w)) = Some first →
        2 ≤ length (_timetable (self w)) →
        let events := _timetable (self w) in
        let now := clock w (ticks w) in
        let time := datetime.time_of now in
        let today := datetime.date_of now in
        ∃ target,
          (_schedule_update w).1 = Ok ()
          ∧ trace (_schedule_update w).2
            = Arm (next_handle w) target :: cancel_trace (self w) (trace w)
          ∧ outstanding (trace (_schedule_update w).2) = [(next_handle w, target)]
          ∧ _event_unsub (self (_schedule_update w).2) = Some (next_handle w)
          ∧ ((∃ e, e ∈ events
                   ∧ datetime.time_lt time (StateEvent.time e) = true
                   ∧ (∀ e', e' ∈ events →
                            datetime.time_lt time (StateEvent.time e') = true →
                            datetime.time_le (StateEvent.time e) (StateEvent.time e') = true)
                   ∧ target = datetime.combine today (StateEvent.time e))
             ∨ ((∀ e, e ∈ events → datetime.time_le (StateEvent.time e) time = true)
                ∧ target = datetime.combine (datetime.add_days today 1)
                                            (StateEvent.time first))))
  ∧ (∀ today,
       let first := StateEvent.mk (hms 6 0 0) STATE_ON in
       let events := [first; StateEvent.mk (hms 18 0 0) STATE_OFF] in
       next_change first events (datetime.combine today (hms 9 0 0))
       = datetime.combine today (hms 18 0 0)
       ∧ next_change first events (datetime.combine today (hms 19 0 0))
         = datetime.combine (today + 1)%Z (hms 6 0 0)).
Proof.
  split; [|split].
  - intros w Htr Hlen. rewrite schedule_update_run.
    pose proof (outstanding_cancel_trace w Htr) as Hout.
    unfold scheduled. simpl.
    destruct (_timetable (self w)) as [|a [|b l]]; simpl in *; try done; lia.
  - intros w first Htr Hs Hhead Hlen events now time today.
    rewrite schedule_update_run.
    pose proof (outstanding_cancel_trace w Htr) as Hout.
    pose proof (next_change_spec first events now Hs Hhead) as Hspec.
    unfold scheduled. subst events. simpl in *.
    destruct (_timetable (self w)) as [|a [|b l]] eqn:Htt; simpl in *; try lia.
    injection Hhead as ->.
    exists (next_change first (first :: b :: l) now).
    simpl. rewrite Hout. repeat split; try done.
  - intros today. by vm_compute.
Qed.

End scheduling.

(** The clauses of C2 in a world with one event, and in a world with the
    events 06:00 ON and 18:00 OFF at 09:00. *)
Lemma next_transition_scheduling_witness :
  outstanding
    (trace (InputTimeTable._schedule_update
              (world_at [StateEvent.mk (hms 12 0 0) STATE_ON]
                        (datetime.combine 0%Z (hms 9 0 0)))).2) = []
  ∧ ∃ target,
      outstanding
        (trace (InputTimeTable._schedule_update
                  (world_at [StateEvent.mk (hms 6 0 0) STATE_ON;
                             StateEvent.mk (hms 18 0 0) STATE_OFF]
                            (datetime.combine 0%Z (hms 9 0 0)))).2)
      = [(0, target)].
Proof.
  destruct next_transition_scheduling as (Hfew & Hmany & _).
  split.
  - refine (proj1 (proj2 (proj2 (Hfew _ _ _)))).
    + intros h p Hin. simpl in Hin. inversion Hin.
    + simpl. lia.
  - destruct (Hmany (world_at [StateEvent.mk (hms 6 0 0) STATE_ON;
                               StateEvent.mk (hms 18 0 0) STATE_OFF]
                              (datetime.combine 0%Z (hms 9 0 0)))
                    (StateEvent.mk (hms 6 0 0) STATE_ON))
      as (target & _ & _ & Hout & _).
    + intros h p Hin. simpl in Hin. inversion Hin.
    + repeat constructor.
    + reflexivity.
    + simpl. lia.
    + exists target. exact Hout.
Defined.

(* ===================================================================== *)
(** * What each method does to the world                                   *)
(* ===================================================================== *)

Section runs.

Import InputTimeTable.

Lemma write_run (w : World) : async_write_ha_state w = (Ok (), written w).
Proof.
  destruct w as [[cfg tt ed unsub] clk n nh tr].
  destruct tt; reflexivity.
Qed.

Lemma update_state_run (w : World) : _update_state w = (Ok (), updated w).
Proof.
  unfold _update_state, mbind, M_bind.
  rewrite schedule_update_run, write_run. done.
Qed.

Lemma async_set_run time state (w : World) :
  async_set time state w =
  (Ok (), updated (with_timetable (set_result time state (_timetable (self w))) w)).
Proof.
  unfold async_set, set_result, mbind, M_bind. simpl.
  destruct (set_loop time state (_timetable (self w))); simpl;
    by rewrite update_state_run.
Qed.

Lemma async_unset_run time (w : World) :
  async_unset time w =
  match unset_loop time (_timetable (self w)) with
  | Some events => (Ok (), updated (with_timetable events w))
  | None =>
      (Raise (Invalid ("The time " ++ datetime.isoformat time ++ " doesn't exist")), w)
  end.
Proof.
  unfold async_unset, mbind, M_bind. simpl.
  destruct (unset_loop time (_timetable (self w))); simpl; [|done].
  by rewrite update_state_run.
Qed.

Lemma async_reset_run (w : World) :
  async_reset w = (Ok (), updated (with_timetable [] w)).
Proof.
  unfold async_reset, mbind, M_bind. simpl. by rewrite update_state_run.
Qed.

Lemma async_reconfig_run timetable (w : World) :
  async_reconfig timetable w =
  if has_duplicate_time timetable
  then (Raise (Invalid "The same time is not allowed more than once"), w)
  else (Ok (),
        updated (with_timetable
                   (sort_by_time
                      (map (λ event, StateEvent.mk (conf_time event) (conf_state event))
                           timetable)) w)).
Proof.
  unfold async_reconfig, mbind, M_bind.
  destruct (has_duplicate_time timetable); simpl; [done|].
  by rewrite update_state_run.
Qed.

Lemma async_update_config_run config (w : World) :
  async_update_config config w = (Ok (), updated (with_config config w)).
Proof.
  unfold async_update_config, mbind, M_bind. simpl. by rewrite update_state_run.
Qed.

Lemma timetable_from_attribute_run timetable (w : World) :
  _timetable_from_attribute timetable w =
  match events_from_attribute timetable with
  | Some events => (Ok (), with_timetable (sort_by_time events) w)
  | None => (Raise (ValueError "Invalid isoformat string"), w)
  end.
Proof.
  unfold _timetable_from_attribute.
  destruct (events_from_attribute timetable); reflexivity.
Qed.

Lemma async_added_to_hass_run last_timetable (w : World) :
  async_added_to_hass last_timetable w =
  match last_timetable with
  | Some (ev :: rest) =>
      match events_from_attribute (ev :: rest) with
      | Some events => (Ok (), updated (with_timetable (sort_by_time events) w))
      | None => (Raise (ValueError "Invalid isoformat string"), w)
      end
  | _ => (Ok (), updated w)
  end.
Proof.
  unfold async_added_to_hass, mbind, M_bind.
  destruct last_timetable as [[|ev rest]|].
  - simpl. by rewrite update_state_run.
  - rewrite timetable_from_attribute_run.
    destruct (events_from_attribute (ev :: rest)); [|done].
    by rewrite update_state_run.
  - simpl. by rewrite update_state_run.
Qed.

Lemma timer_fires_run h (w : World) :
  timer_fires h w =
  if bool_decide (h ∈ (outstanding (trace w)).*1)
  then (Ok (), updated (mk_world (self w) (clock w) (ticks w) (next_handle w)
                                 (Fire h :: trace w)))
  else (Ok (), w).
Proof.
  unfold timer_fires. case_bool_decide; [|done].
  unfold mbind, M_bind. simpl. by rewrite update_state_run.
Qed.

(** [_update_state] leaves the configuration and the timetable alone. *)
Lemma updated_timetable (w : World) :
  _timetable (self (updated w)) = _timetable (self w).
Proof. unfold updated, written, scheduled. simpl. by destruct (_timetable (self w)) as [|a [|b l]]. Qed.

Lemma updated_config (w : World) :
  _config (self (updated w)) = _config (self w).
Proof. unfold updated, written, scheduled. simpl. by destruct (_timetable (self w)) as [|a [|b l]]. Qed.

Lemma with_timetable_timetable l (w : World) :
  _timetable (self (with_timetable l w)) = l.
Proof. reflexivity. Qed.

Lemma updated_trace (w : World) :
  trace (updated w) = published (scheduled w) :: trace (scheduled w).
Proof. reflexivity. Qed.

End runs.

(* ===================================================================== *)
(** * The loops of [async_set] and [async_unset]                           *)
(* ===================================================================== *)

Section loops.

Import InputTimeTable.

Implicit Types (time : datetime.time) (state : string) (e : event) (l pre post : list event).

Lemma strictly_ascending_times l :
  strictly_ascending l
  ↔ StronglySorted (λ a b, datetime.time_lt a b = true) (times l).
Proof.
  unfold strictly_ascending, times. induction l as [|x l IH]; simpl.
  - split; constructor.
  - rewrite !StronglySorted_cons, IH.
    change (map StateEvent.time l) with (StateEvent.time <$> l).
    by rewrite Forall_fmap.
Qed.

Lemma times_app l1 l2 : times (l1 ++ l2) = times l1 ++ times l2.
Proof. apply map_app. Qed.

(** The first event at a time that occurs in the timetable. *)
Lemma first_at time l :
  time ∈ times l →
  ∃ pre e post, l = pre ++ e :: post ∧ StateEvent.time e = time ∧ time ∉ times pre.
Proof.
  induction l as [|x l IH]; simpl; intros Hin; [by apply elem_of_nil in Hin|].
  destruct (decide (StateEvent.time x = time)) as [Heq|Hne].
  - exists [], x, l. repeat split; [done|]. apply not_elem_of_nil.
  - apply elem_of_cons in Hin as [Heq|Hin]; [done|].
    destruct (IH Hin) as (pre & e & post & -> & He & Hpre).
    exists (x :: pre), e, post. repeat split; [done|].
    simpl. intros [Heq|Hin']%elem_of_cons; [done|]. by apply Hpre.
Qed.

Lemma set_loop_None time state l :
  time ∉ times l → set_loop time state l = None.
Proof.
  induction l as [|x l IH]; simpl; intros Hnotin; [done|].
  apply not_elem_of_cons in Hnotin as [Hne Hnotin].
  assert (datetime.time_eq (StateEvent.time x) time = false) as ->
    by (apply time_eq_false; congruence).
  by rewrite IH.
Qed.

Lemma set_loop_found time state pre e post :
  time ∉ times pre → StateEvent.time e = time →
  set_loop time state (pre ++ e :: post)
  = Some (pre ++ StateEvent.mk time state :: post).
Proof.
  induction pre as [|x pre IH]; simpl; intros Hnotin He.
  - assert (datetime.time_eq (StateEvent.time e) time = true) as ->
      by (by apply time_eq_iff).
    by rewrite He.
  - apply not_elem_of_cons in Hnotin as [Hne Hnotin].
    assert (datetime.time_eq (StateEvent.time x) time = false) as ->
      by (apply time_eq_false; congruence).
    by rewrite IH.
Qed.

Lemma unset_loop_None time l :
  time ∉ times l → unset_loop time l = None.
Proof.
  induction l as [|x l IH]; simpl; intros Hnotin; [done|].
  apply not_elem_of_cons in Hnotin as [Hne Hnotin].
  assert (datetime.time_eq (StateEvent.time x) time = false) as ->
    by (apply time_eq_false; congruence).
  by rewrite IH.
Qed.

Lemma unset_loop_found time pre e post :
  time ∉ times pre → StateEvent.time e = time →
  unset_loop time (pre ++ e :: post) = Some (pre ++ post).
Proof.
  induction pre as [|x pre IH]; simpl; intros Hnotin He.
  - by assert (datetime.time_eq (StateEvent.time e) time = true) as ->
      by (by apply time_eq_iff).
  - apply not_elem_of_cons in Hnotin as [Hne Hnotin].
    assert (datetime.time_eq (StateEvent.time x) time = false) as ->
      by (apply time_eq_false; congruence).
    by rewrite IH.
Qed.

(** What [async_set] leaves: the first event at [time] overwritten, or the
    new event sorted in. *)
Lemma set_result_found time state pre e post :
  time ∉ times pre → StateEvent.time e = time →
  set_result time state (pre ++ e :: post)
  = pre ++ StateEvent.mk time state :: post.
Proof. intros. unfold set_result. by rewrite set_loop_found. Qed.

Lemma set_result_new time state l :
  time ∉ times l →
  set_result time state l = sort_by_time (l ++ [StateEvent.mk time state]).
Proof. intros. unfold set_result. by rewrite set_loop_None. Qed.

Lemma set_result_strictly_ascending time state l :
  strictly_ascending l → strictly_ascending (set_result time state l).
Proof.
  intros Hs. destruct (decide (time ∈ times l)) as [Hin|Hnotin].
  - destruct (first_at _ _ Hin) as (pre & e & post & -> & He & Hpre).
    rewrite set_result_found by done.
    apply strictly_ascending_times. apply strictly_ascending_times in Hs.
    rewrite times_app in *. simpl in *. rewrite <- He. exact Hs.
  - rewrite set_result_new by done.
    apply sort_by_time_strict. rewrite times_app. simpl.
    apply NoDup_app. split; [by apply strictly_ascending_NoDup|].
    split; [|apply NoDup_singleton].
    intros t Ht Ht'. apply list_elem_of_singleton in Ht' as ->. done.
Qed.

Lemma unset_loop_strictly_ascending time l l' :
  strictly_ascending l → unset_loop time l = Some l' → strictly_ascending l'.
Proof.
  intros Hs Hl'. destruct (decide (time ∈ times l)) as [Hin|Hnotin].
  - destruct (first_at _ _ Hin) as (pre & e & post & -> & He & Hpre).
    rewrite unset_loop_found in Hl' by done. injection Hl' as <-.
    unfold strictly_ascending in *.
    apply StronglySorted_app in Hs as (Hcross & Hpre' & Hpost).
    apply StronglySorted_cons in Hpost as [_ Hpost].
    apply StronglySorted_app. repeat split; [|done|done].
    intros x1 Hx1 x2 Hx2. apply Hcross; [done|]. by right.
  - by rewrite unset_loop_None in Hl'.
Qed.

(** The timetable after a call, read off the world. *)
Lemma after_timetable (c : call) (w : World) :
  _timetable (self (after c w)) = timetable_after c (_timetable (self w)).
Proof.
  unfold after, perform, timetable_after. destruct c as [last| | | | | | |].
  - rewrite async_added_to_hass_run.
    destruct last as [[|ev rest]|];
      [apply updated_timetable | | apply updated_timetable].
    destruct (events_from_attribute (ev :: rest)); [|done].
    cbn [snd]. by rewrite updated_timetable.
  - rewrite async_set_run. cbn [snd]. by rewrite updated_timetable.
  - rewrite async_unset_run.
    destruct (unset_loop _ _); cbn [snd]; [|done]. by rewrite updated_timetable.
  - rewrite async_reset_run. cbn [snd]. by rewrite updated_timetable.
  - rewrite async_reconfig_run.
    destruct (has_duplicate_time _); cbn [snd]; [done|].
    by rewrite updated_timetable.
  - rewrite async_update_config_run. cbn [snd]. by rewrite updated_timetable.
  - rewrite timer_fires_run. case_bool_decide; cbn [snd]; [|done].
    by rewrite updated_timetable.
  - done.
Qed.

End loops.

(* ===================================================================== *)
(** * The mutations keep the timetable in order                            *)
(* ===================================================================== *)

Section mutations.

Import InputTimeTable.

(** A Python set built from a list is as large as the list exactly when the
    list has no element twice. *)
Lemma size_list_to_set_times (l : list datetime.time) :
  size (list_to_set l : gset datetime.time) ≤ length l
  ∧ (size (list_to_set l : gset datetime.time) = length l → NoDup l).
Proof.
  induction l as [|x l [IHle IHnd]].
  - rewrite list_to_set_nil, size_empty. split; [done | constructor].
  - rewrite list_to_set_cons. cbn [length].
    destruct (decide (x ∈ l)) as [Hin|Hnotin].
    + rewrite (subseteq_union_1_L (C:=gset datetime.time) {[x]} (list_to_set l))
        by set_solver.
      split; [lia | intros Heq; lia].
    + rewrite size_union by set_solver. rewrite size_singleton.
      split; [lia|]. intros Heq. constructor; [done|]. apply IHnd. lia.
Qed.

Lemma has_duplicate_time_iff (timetable : list conf_event) :
  has_duplicate_time timetable = false ↔ NoDup (map conf_time timetable).
Proof.
  unfold has_duplicate_time. rewrite bool_decide_eq_false.
  destruct (size_list_to_set_times (map conf_time timetable)) as [Hle Hnd].
  rewrite length_map in *. split.
  - intros Hge. apply Hnd. lia.
  - intros Hnodup.
    pose proof (size_list_to_set (C:=gset datetime.time) _ Hnodup) as Hsize.
    rewrite length_map in Hsize. lia.
Qed.

Lemma timetable_after_strictly_ascending (c : call) (l : list event) :
  restores c = false →
  strictly_ascending l → strictly_ascending (timetable_after c l).
Proof.
  intros Hc Hs. destruct c as [last|time state|time| |timetable|config|h|];
    simpl in *; try done.
  - by apply set_result_strictly_ascending.
  - destruct (unset_loop time l) as [l'|] eqn:Hl'; simpl; [|done].
    by eapply unset_loop_strictly_ascending.
  - constructor.
  - destruct (has_duplicate_time timetable) eqn:Hdup; [done|].
    apply sort_by_time_strict.
    apply has_duplicate_time_iff in Hdup.
    unfold times, events_of_conf. rewrite map_map. done.
Qed.

Lemma after_all_app (cs1 cs2 : list call) (w : World) :
  after_all (cs1 ++ cs2) w = after_all cs2 (after_all cs1 w).
Proof. apply fold_left_app. Qed.

Lemma after_all_strictly_ascending (calls : list call) (w : World) :
  Forall (λ c, restores c = false) calls →
  strictly_ascending (_timetable (self w)) →
  strictly_ascending (_timetable (self (after_all calls w))).
Proof.
  revert w. induction calls as [|c calls IH]; simpl; intros w Hcalls Hs; [done|].
  apply Forall_cons in Hcalls as [Hc Hcalls].
  apply IH; [done|]. rewrite after_timetable.
  by apply timetable_after_strictly_ascending.
Qed.

(** C3. Sort and uniqueness invariant.  From a timetable that is strictly
    ascending by time, after every call of a sequence of [set], [unset],
    [reset] and [reconfig] calls (failed ones included, and timer firings
    and configuration updates as well) the timetable is again strictly
    ascending by time, and no two of its events share a time. *)
Theorem sort_uniqueness_invariant (calls : list call) (w : World) (n : nat) :
  Forall (λ c, restores c = false) calls →
  strictly_ascending (_timetable (self w)) →
  strictly_ascending (_timetable (self (after_all (take n calls) w)))
  ∧ NoDup (times (_timetable (self (after_all (take n calls) w)))).
Proof.
  intros Hcalls Hs.
  assert (strictly_ascending (_timetable (self (after_all (take n calls) w)))) as H.
  { apply after_all_strictly_ascending; [|done]. by apply Forall_take. }
  split; [done|]. by apply strictly_ascending_NoDup.
Qed.

(** C3 on a fresh entity, after the second of five service calls. *)
Lemma sort_uniqueness_invariant_witness :
  strictly_ascending
    (_timetable (self (after_all
       (take 2 [ServiceSet (hms 20 0 0) STATE_OFF;
                ServiceSet (hms 8 0 0) STATE_ON;
                ServiceUnset (hms 20 0 0);
                ServiceReconfig [mk_conf (hms 9 0 0) STATE_ON;
                                 mk_conf (hms 7 0 0) STATE_OFF];
                ServiceReset])
       (initial ∅ (λ _, datetime.combine 0%Z (hms 12 0 0))))))
  ∧ NoDup (times (_timetable (self (after_all
       (take 2 [ServiceSet (hms 20 0 0) STATE_OFF;
                ServiceSet (hms 8 0 0) STATE_ON;
                ServiceUnset (hms 20 0 0);
                ServiceReconfig [mk_conf (hms 9 0 0) STATE_ON;
                                 mk_conf (hms 7 0 0) STATE_OFF];
                ServiceReset])
       (initial ∅ (λ _, datetime.combine 0%Z (hms 12 0 0))))))).
Proof.
  apply sort_uniqueness_invariant.
  - repeat constructor.
  - constructor.
Defined.

(** Setting the same event twice is setting it once. *)
Lemma set_result_idempotent time state (l : list event) :
  set_result time state (set_result time state l) = set_result time state l.
Proof.
  destruct (decide (time ∈ times l)) as [Hin|Hnotin].
  - destruct (first_at _ _ Hin) as (pre & e & post & -> & He & Hpre).
    rewrite set_result_found by done.
    by rewrite set_result_found.
  - rewrite (set_result_new time state l) by done.
    set (l1 := sort_by_time (l ++ [StateEvent.mk time state])).
    assert (time ∈ times l1) as Hin1.
    { unfold times, l1. rewrite sort_by_time_perm, map_app. simpl.
      apply elem_of_app. right. by left. }
    destruct (first_at _ _ Hin1) as (pre & e & post & Heq & He & Hpre).
    assert (e = StateEvent.mk time state) as ->.
    { assert (e ∈ l1) as Hel by (rewrite Heq; apply elem_of_app; right; by left).
      unfold l1 in Hel. rewrite sort_by_time_perm in Hel.
      apply elem_of_app in Hel as [Hel|Hel].
      - exfalso. apply Hnotin. rewrite <- He.
        unfold times. apply list_elem_of_fmap. by exists e.
      - by apply list_elem_of_singleton in Hel. }
    rewrite Heq. by rewrite set_result_found.
Qed.

(** C9. Upsert idempotence.  [set(t, s)] always returns, and calling it
    again at once with the same arguments leaves the event list as the
    first call left it (whether or not the times were unique). *)
Theorem upsert_idempotence (w : World) (time : datetime.time) (state : string) :
  (async_set time state w).1 = Ok ()
  ∧ (async_set time state (async_set time state w).2).1 = Ok ()
  ∧ _timetable (self (async_set time state (async_set time state w).2).2)
    = _timetable (self (async_set time state w).2).
Proof.
  rewrite !async_set_run. cbn [fst snd].
  split; [done|]. split; [done|].
  rewrite !updated_timetable. simpl.
  apply set_result_idempotent.
Qed.



(** C10. Configuration update.  [async_update_config] replaces the
    configuration by the new one, leaves the event list as it was, and runs
    [_schedule_update] (the kept timer is cancelled and, with two or more
    events, a new one armed) and then [async_write_ha_state], which
    publishes the recomputed state. *)
Theorem config_update_frame (w : World) (config : gmap string string) :
  let w1 := (_schedule_update (with_config config w)).2 in
  let w' := (async_update_config config w).2 in
  (async_update_config config w).1 = Ok ()
  ∧ _config (self w') = config
  ∧ _timetable (self w') = _timetable (self w)
  ∧ w' = (async_write_ha_state w1).2
  ∧ trace w' = published w1 :: trace w1
  ∧ (trace w1 = cancel_trace (self w) (trace w)
     ∨ ∃ target, trace w1 = Arm (next_handle w) target :: cancel_trace (self w) (trace w)).
Proof.
  intros w1 w'. subst w1 w'.
  rewrite async_update_config_run, schedule_update_run, write_run. cbn [fst snd].
  rewrite updated_timetable, updated_config.
  repeat split; try done.
  unfold scheduled. simpl.
  destruct (_timetable (self w)) as [|a [|b l]]; simpl; eauto.
Qed.

End mutations.

(* ===================================================================== *)
(** * [reconfig]                                                           *)
(* ===================================================================== *)

Section reconfig.

Import InputTimeTable.

(** C4. Reconfig.  When two entries of the input share a time, [reconfig]
    raises and leaves the world, the stored timetable included, exactly as
    it was.  When all input times are distinct it returns, and the stored
    timetable is the input events sorted by time: a permutation of the
    input, strictly ascending. *)
Theorem reconfig_atomicity :
  (∀ (w : World) (timetable : list conf_event) (i j : nat) (a b : conf_event),
     i ≠ j →
     timetable !! i = Some a →
     timetable !! j = Some b →
     conf_time a = conf_time b →
     async_reconfig timetable w
     = (Raise (Invalid "The same time is not allowed more than once"), w))
  ∧ (∀ (w : World) (timetable : list conf_event),
       NoDup (map conf_time timetable) →
       (async_reconfig timetable w).1 = Ok ()
       ∧ _timetable (self (async_reconfig timetable w).2)
         = sort_by_time (events_of_conf timetable)
       ∧ _timetable (self (async_reconfig timetable w).2) ≡ₚ events_of_conf timetable
       ∧ strictly_ascending (_timetable (self (async_reconfig timetable w).2))).
Proof.
  split.
  - intros w timetable i j a b Hij Hi Hj Hab.
    rewrite async_reconfig_run.
    destruct (has_duplicate_time timetable) eqn:Hdup; [done|].
    apply has_duplicate_time_iff in Hdup.
    exfalso. apply Hij.
    apply (proj1 (NoDup_alt _) Hdup i j (conf_time a)).
    + change (map conf_time timetable) with (conf_time <$> timetable).
      by rewrite list_lookup_fmap, Hi.
    + change (map conf_time timetable) with (conf_time <$> timetable).
      by rewrite list_lookup_fmap, Hj, Hab.
  - intros w timetable Hnodup.
    rewrite async_reconfig_run.
    pose proof (proj2 (has_duplicate_time_iff timetable) Hnodup) as ->.
    cbn [fst snd]. rewrite updated_timetable. simpl.
    repeat split; [apply sort_by_time_perm|].
    apply sort_by_time_strict.
    unfold times, events_of_conf. by rewrite map_map.
Qed.

(** C4 on the input 08:00 ON, 08:00 OFF, and on the input 20:00 OFF,
    08:00 ON. *)
Lemma reconfig_atomicity_witness :
  (InputTimeTable.async_reconfig
     [mk_conf (hms 8 0 0) STATE_ON; mk_conf (hms 8 0 0) STATE_OFF]
     (world_at [StateEvent.mk (hms 12 0 0) STATE_ON] (datetime.combine 0%Z (hms 9 0 0)))).2
  = world_at [StateEvent.mk (hms 12 0 0) STATE_ON] (datetime.combine 0%Z (hms 9 0 0))
  ∧ _timetable (self (InputTimeTable.async_reconfig
       [mk_conf (hms 20 0 0) STATE_OFF; mk_conf (hms 8 0 0) STATE_ON]
       (world_at [StateEvent.mk (hms 12 0 0) STATE_ON]
                 (datetime.combine 0%Z (hms 9 0 0)))).2)
    = sort_by_time
        (events_of_conf [mk_conf (hms 20 0 0) STATE_OFF; mk_conf (hms 8 0 0) STATE_ON]).
Proof.
  destruct reconfig_atomicity as [Hdup Hok].
  split.
  - rewrite (Hdup _ _ 0 1 (mk_conf (hms 8 0 0) STATE_ON) (mk_conf (hms 8 0 0) STATE_OFF));
      [reflexivity | lia | reflexivity | reflexivity | reflexivity].
  - refine (proj1 (proj2 (Hok _ _ _))).
    simpl. constructor.
    + intros Hin. apply elem_of_cons in Hin as [Hin|Hin]; [discriminate Hin|].
      by apply elem_of_nil in Hin.
    + constructor; [apply not_elem_of_nil | constructor].
Defined.

End reconfig.

(* ===================================================================== *)
(** * The timer                                                            *)
(* ===================================================================== *)

Section timer.

Import InputTimeTable.

Lemma at_most_one_now (tr : list host_event) :
  at_most_one_timer tr → length (outstanding tr) ≤ 1.
Proof. destruct tr; simpl; [lia | by intros [? _]]. Qed.

Lemma discipline_initial config clk : timer_discipline (initial config clk).
Proof.
  repeat split. intros h p Hin. simpl in Hin. by apply elem_of_nil in Hin.
Qed.

Lemma discipline_with_timetable l (w : World) :
  timer_discipline w → timer_discipline (with_timetable l w).
Proof. by intros (Htr & Hone & Harm). Qed.

Lemma discipline_with_config c (w : World) :
  timer_discipline w → timer_discipline (with_config c w).
Proof. by intros (Htr & Hone & Harm). Qed.

Lemma discipline_fired h (w : World) :
  timer_discipline w → timer_discipline (fired h w).
Proof.
  intros (Htr & Hone & Harm). repeat split; [| |done|done].
  - intros h' p Hin. simpl in Hin.
    apply list_elem_of_filter in Hin as [_ Hin]. by apply (Htr h' p).
  - simpl. etrans; [apply length_filter|]. by apply at_most_one_now.
Qed.

Lemma discipline_scheduled (w : World) :
  timer_discipline w → timer_discipline (scheduled w).
Proof.
  intros (Htr & Hone & Harm).
  pose proof (outstanding_cancel_trace w Htr) as Hnone.
  assert (at_most_one_timer (cancel_trace (self w) (trace w))
          ∧ armed_only_when_none (cancel_trace (self w) (trace w))) as [Hone' Harm'].
  { unfold cancel_trace in *.
    destruct (_event_unsub (self w)); [|done].
    split; [|done]. split; [|done]. rewrite Hnone. simpl. lia. }
  unfold scheduled.
  destruct (_timetable (self w)) as [|a [|b l]]; repeat split; simpl; try done.
  - intros h p Hin. simpl in Hin. rewrite Hnone in Hin. by apply elem_of_nil in Hin.
  - intros h p Hin. simpl in Hin. rewrite Hnone in Hin. by apply elem_of_nil in Hin.
  - intros h p Hin. simpl in Hin. rewrite Hnone in Hin.
    apply list_elem_of_singleton in Hin. simpl. congruence.
  - rewrite Hnone. simpl. lia.
Qed.

Lemma discipline_written (w : World) :
  timer_discipline w → timer_discipline (written w).
Proof.
  intros (Htr & Hone & Harm). repeat split; simpl; try done.
  by apply at_most_one_now.
Qed.

Lemma discipline_updated (w : World) :
  timer_discipline w → timer_discipline (updated w).
Proof. intros. by apply discipline_written, discipline_scheduled. Qed.

Lemma discipline_after (c : call) (w : World) :
  timer_discipline w → timer_discipline (after c w).
Proof.
  intros Hw. unfold after, perform. destruct c as [last| | | | | | |].
  - rewrite async_added_to_hass_run.
    destruct last as [[|ev rest]|]; cbn [snd]; try by apply discipline_updated.
    destruct (events_from_attribute (ev :: rest)); cbn [snd]; [|done].
    by apply discipline_updated, discipline_with_timetable.
  - rewrite async_set_run. cbn [snd].
    by apply discipline_updated, discipline_with_timetable.
  - rewrite async_unset_run.
    destruct (unset_loop _ _); cbn [snd]; [|done].
    by apply discipline_updated, discipline_with_timetable.
  - rewrite async_reset_run. cbn [snd].
    by apply discipline_updated, discipline_with_timetable.
  - rewrite async_reconfig_run.
    destruct (has_duplicate_time _); cbn [snd]; [done|].
    by apply discipline_updated, discipline_with_timetable.
  - rewrite async_update_config_run. cbn [snd].
    by apply discipline_updated, discipline_with_config.
  - rewrite timer_fires_run. case_bool_decide; cbn [snd]; [|done].
    by apply discipline_updated, (discipline_fired h).
  - done.
Qed.

Lemma discipline_after_all (calls : list call) (w : World) :
  timer_discipline w → timer_discipline (after_all calls w).
Proof.
  revert w. induction calls as [|c calls IH]; simpl; intros w Hw; [done|].
  by apply IH, discipline_after.
Qed.

(** C6, as the code has it.  Whatever is done to an entity from its
    construction on (it is added, services are called and may fail, its
    timer fires, it is removed), at every point of the history at most one
    of its timers is outstanding, and whenever a timer was armed none was
    outstanding: the kept one had been cancelled first.  Removing the entity
    runs no code of the entity and leaves the world, an outstanding timer
    included, as it is. *)
Theorem single_outstanding_timer
    (config : gmap string string) (clk : nat → datetime.datetime) (calls : list call) :
  at_most_one_timer (trace (after_all calls (initial config clk)))
  ∧ armed_only_when_none (trace (after_all calls (initial config clk)))
  ∧ timer_tracked (after_all calls (initial config clk))
  ∧ after Remove (after_all calls (initial config clk))
    = after_all calls (initial config clk).
Proof.
  destruct (discipline_after_all calls (initial config clk)
              (discipline_initial config clk)) as (Htr & Hone & Harm).
  done.
Qed.

(** C6 as claimed fails: after two [set] calls a timer is outstanding; the
    entity is removed; the timer is still outstanding, and when it fires
    the stale callback runs (it publishes a state and arms a new timer). *)
Lemma teardown_keeps_timer :
  let clk := λ _ : nat, datetime.combine 0%Z (hms 9 0 0) in
  let w := after_all [ServiceSet (hms 6 0 0) STATE_ON;
                      ServiceSet (hms 18 0 0) STATE_OFF;
                      Remove] (initial ∅ clk) in
  outstanding (trace w) = [(0, datetime.combine 0%Z (hms 18 0 0))]
  ∧ outstanding (trace w) ≠ []
  ∧ length (trace (after (TimerFires 0) w)) = length (trace w) + 4
  ∧ outstanding (trace (after (TimerFires 0) w))
    = [(1, datetime.combine 0%Z (hms 18 0 0))].
Proof. by vm_compute. Qed.

End timer.

(* ===================================================================== *)
(** * [set] on a timetable with duplicate times                            *)
(* ===================================================================== *)

Section duplicates.

Import InputTimeTable.

(** At an instant, the state is that of the last event that is not after
    it, when all events before that one are not after it either. *)
Lemma state_at_last_le (front : list event) (x : event) (post : list event)
    (now : datetime.time) :
  Forall (λ y, datetime.time_le (StateEvent.time y) now = true) front →
  datetime.time_le (StateEvent.time x) now = true →
  Forall (λ y, datetime.time_lt now (StateEvent.time y) = true) post →
  state_at (front ++ x :: post) now = StateEvent.state x.
Proof.
  intros Hfront Hx Hpost. unfold state_at.
  assert (Forall (λ y, datetime.time_le (StateEvent.time y) now = true) (front ++ [x]))
    as Hall by (apply Forall_app; split; [done | by constructor]).
  destruct post as [|p post'].
  - rewrite last_snoc. rewrite state_loop_exhaust by done. by rewrite last_snoc.
  - apply Forall_cons in Hpost as [Hp _].
    destruct (last (front ++ x :: p :: post')) as [final|] eqn:Hlast.
    + rewrite (cons_middle x front (p :: post')), app_assoc.
      rewrite state_loop_break; [| apply MIDNIGHT_le | done | done].
      by rewrite last_snoc.
    + apply last_None in Hlast. by destruct front.
Qed.

(** C7, as the code has it.  Loading a snapshot keeps one event per entry,
    duplicates included.  When the timetable, in ascending order, holds
    several events at a time [t], [set(t, s)] returns and overwrites the
    state of the first of them only; the other events at [t] stay, and the
    state in effect at [t] is the state of the last event at [t], which the
    call did not touch. *)
Theorem set_on_duplicate_times :
  (∀ (w : World) (snapshot : list attr_event) (events : list event),
     events_from_attribute snapshot = Some events →
     _timetable_from_attribute snapshot w
     = (Ok (), with_timetable (sort_by_time events) w)
     ∧ length (sort_by_time events) = length snapshot)
  ∧ (∀ (w : World) (time : datetime.time) (state : string)
       (pre : list event) (e : event) (mid : list event) (e' : event)
       (post : list event),
       _timetable (self w) = pre ++ e :: mid ++ e' :: post →
       ascending (_timetable (self w)) →
       time ∉ times pre →
       StateEvent.time e = time →
       StateEvent.time e' = time →
       Forall (λ y, datetime.time_lt time (StateEvent.time y) = true) post →
       (async_set time state w).1 = Ok ()
       ∧ _timetable (self (async_set time state w).2)
         = pre ++ StateEvent.mk time state :: mid ++ e' :: post
       ∧ state_at (_timetable (self (async_set time state w).2)) time
         = StateEvent.state e').
Proof.
  split.
  - intros w snapshot events Hev.
    rewrite timetable_from_attribute_run, Hev. split; [done|].
    rewrite sort_by_time_length. symmetry. by eapply length_mapM.
  - intros w time state pre e mid e' post Htt Hs Hpre He He' Hpost.
    rewrite async_set_run. cbn [fst snd].
    rewrite updated_timetable, with_timetable_timetable.
    rewrite Htt, set_result_found by done.
    split; [done|]. split; [done|].
    rewrite Htt in Hs. unfold ascending in Hs.
    rewrite (app_comm_cons mid), app_assoc in Hs.
    apply StronglySorted_app in Hs as (Hcross & _ & _).
    rewrite (app_comm_cons mid), app_assoc.
    apply state_at_last_le; [| time_order | done].
    apply Forall_forall. intros y Hy.
    apply elem_of_app in Hy as [Hy|Hy].
    + rewrite <- He'. apply Hcross; [|by left].
      apply elem_of_app. by left.
    + apply elem_of_cons in Hy as [->|Hy]; [simpl; time_order|].
      rewrite <- He'. apply Hcross; [|by left].
      apply elem_of_app. right. by right.
Qed.

(** C7 on the timetable 08:00 OFF, 08:00 OFF, 20:00 ON. *)
Lemma set_on_duplicate_times_witness :
  state_at
    (_timetable (self (InputTimeTable.async_set (hms 8 0 0) STATE_ON
       (world_at [StateEvent.mk (hms 8 0 0) STATE_OFF;
                  StateEvent.mk (hms 8 0 0) STATE_OFF;
                  StateEvent.mk (hms 20 0 0) STATE_ON]
                 (datetime.combine 0%Z (hms 9 0 0)))).2))
    (hms 8 0 0)
  = STATE_OFF.
Proof.
  destruct set_on_duplicate_times as [_ Hset].
  refine (proj2 (proj2 (Hset _ (hms 8 0 0) STATE_ON []
                          (StateEvent.mk (hms 8 0 0) STATE_OFF) []
                          (StateEvent.mk (hms 8 0 0) STATE_OFF)
                          [StateEvent.mk (hms 20 0 0) STATE_ON] _ _ _ _ _ _))).
  - reflexivity.
  - repeat constructor.
  - apply not_elem_of_nil.
  - reflexivity.
  - reflexivity.
  - repeat constructor.
Defined.

(** C7 as claimed fails: a snapshot with two entries at 08:00, both OFF, is
    restored; [set(08:00, ON)] follows.  The table still has two events at
    08:00, the second one OFF, and the state in effect at 08:00 is OFF. *)
Lemma set_does_not_collapse_duplicates :
  let w := after_all
             [AddedToHass (Some [mk_attr "08:00:00" STATE_OFF;
                                 mk_attr "08:00:00" STATE_OFF]);
              ServiceSet (hms 8 0 0) STATE_ON]
             (initial ∅ (λ _, datetime.combine 0%Z (hms 8 0 0))) in
  _timetable (self w)
  = [StateEvent.mk (hms 8 0 0) STATE_ON; StateEvent.mk (hms 8 0 0) STATE_OFF]
  ∧ state_at (_timetable (self w)) (hms 8 0 0) = STATE_OFF
  ∧ state_at (_timetable (self w)) (hms 8 0 0) ≠ STATE_ON.
Proof. by vm_compute. Qed.

End duplicates.

(* ===================================================================== *)
(** * The attribute format                                                 *)
(* ===================================================================== *)

Section attribute_format.

Import InputTimeTable.

Local Open Scope N_scope.

Lemma split10 (n : N) :
  ∃ q r, n / 10 = q ∧ n mod 10 = r ∧ n = 10 * q + r ∧ r < 10.
Proof.
  exists (n / 10), (n mod 10). repeat split.
  - by apply N.div_mod.
  - by apply N.mod_lt.
Qed.

Lemma digit_val_digit (n : N) : datetime.digit_val (datetime.digit n) = Some (n mod 10).
Proof.
  unfold datetime.digit_val, datetime.digit.
  destruct (split10 n) as (q & r & _ & -> & _ & Hlt).
  rewrite N_ascii_embedding by lia.
  assert ((48 <=? 48 + r) = true) as -> by (apply N.leb_le; lia).
  assert ((48 + r <=? 57) = true) as -> by (apply N.leb_le; lia).
  simpl. f_equal. lia.
Qed.

Lemma parse_fmt02 (n : N) :
  n < 100 → datetime.parse_digits (datetime.fmt02 n) 0 = Some n.
Proof.
  intros Hn. unfold datetime.fmt02. simpl.
  rewrite !digit_val_digit. f_equal.
  destruct (split10 n) as (n1 & d0 & Hq & Hr & E0 & L0). rewrite Hq, Hr. clear Hq Hr.
  destruct (split10 n1) as (n2 & d1 & Hq & Hr & E1 & L1). rewrite Hr. clear Hq Hr.
  lia.
Qed.

Lemma parse_fmt06 (n : N) :
  n < 1000000 → datetime.parse_digits (datetime.fmt06 n) 0 = Some n.
Proof.
  intros Hn. unfold datetime.fmt06. simpl.
  rewrite !digit_val_digit. f_equal.
  replace (n / 100000) with (n / 10 / 10 / 10 / 10 / 10)
    by (rewrite !N.Div0.div_div; done).
  replace (n / 10000) with (n / 10 / 10 / 10 / 10)
    by (rewrite !N.Div0.div_div; done).
  replace (n / 1000) with (n / 10 / 10 / 10)
    by (rewrite !N.Div0.div_div; done).
  replace (n / 100) with (n / 10 / 10)
    by (rewrite !N.Div0.div_div; done).
  destruct (split10 n) as (n1 & d0 & Hq & Hr & E0 & L0). rewrite Hq, Hr. clear Hq Hr.
  destruct (split10 n1) as (n2 & d1 & Hq & Hr & E1 & L1). rewrite Hq, Hr. clear Hq Hr.
  destruct (split10 n2) as (n3 & d2 & Hq & Hr & E2 & L2). rewrite Hq, Hr. clear Hq Hr.
  destruct (split10 n3) as (n4 & d3 & Hq & Hr & E3 & L3). rewrite Hq, Hr. clear Hq Hr.
  destruct (split10 n4) as (n5 & d4 & Hq & Hr & E4 & L4). rewrite Hq, Hr. clear Hq Hr.
  destruct (split10 n5) as (n6 & d5 & Hq & Hr & E5 & L5). rewrite Hr. clear Hq Hr.
  lia.
Qed.

Lemma parse_hh_mm_ss_ff_fmt (h m s : N) (frac : list ascii) :
  datetime.parse_hh_mm_ss_ff
    (datetime.fmt02 h ++ datetime.colon :: datetime.fmt02 m
     ++ datetime.colon :: datetime.fmt02 s ++ frac)
  = (h' ← datetime.parse_digits (datetime.fmt02 h) 0;
     m' ← datetime.parse_digits (datetime.fmt02 m) 0;
     s' ← datetime.parse_digits (datetime.fmt02 s) 0;
     match frac with
     | [] => Some (h', m', s', 0)
     | d :: ff =>
         if Ascii.eqb d datetime.dot
         then us ← datetime.parse_fraction ff; Some (h', m', s', us)
         else None
     end).
Proof. reflexivity. Qed.

Lemma parse_fraction_fmt06 (us : N) :
  datetime.parse_fraction (datetime.fmt06 us)
  = datetime.parse_digits (datetime.fmt06 us) 0.
Proof. reflexivity. Qed.

(** Parsing what [isoformat] wrote gives the time back. *)
Lemma fromisoformat_isoformat (t : datetime.time) :
  datetime.valid t → datetime.fromisoformat (datetime.isoformat t) = Some t.
Proof.
  destruct t as [h m s us]. unfold datetime.valid.
  cbn [datetime.hour datetime.minute datetime.second datetime.microsecond].
  intros (Hh & Hm & Hs & Hus).
  unfold datetime.fromisoformat, datetime.isoformat, datetime.isoformat_chars.
  cbn [datetime.hour datetime.minute datetime.second datetime.microsecond].
  rewrite list_ascii_of_string_of_list_ascii, parse_hh_mm_ss_ff_fmt.
  rewrite !parse_fmt02 by lia.
  assert ((h <? 24) = true) as Hh' by (apply N.ltb_lt; lia).
  assert ((m <? 60) = true) as Hm' by (apply N.ltb_lt; lia).
  assert ((s <? 60) = true) as Hs' by (apply N.ltb_lt; lia).
  assert ((us <? 1000000) = true) as Hus' by (apply N.ltb_lt; lia).
  destruct (us =? 0) eqn:Hz.
  - apply N.eqb_eq in Hz as ->. simpl. by rewrite Hh', Hm', Hs'.
  - cbn [mbind option_bind].
    change (Ascii.eqb datetime.dot datetime.dot) with true. cbn iota.
    rewrite parse_fraction_fmt06, parse_fmt06 by done.
    cbn [mbind option_bind]. by rewrite Hh', Hm', Hs', Hus'.
Qed.

(** Reading back what [_timetable_to_attribute] wrote gives the events
    back, in the order they were written. *)
Lemma events_from_attribute_to_attribute (timetable : list event) :
  Forall (λ e, datetime.valid (StateEvent.time e)) timetable →
  events_from_attribute (timetable_to_attribute timetable) = Some timetable.
Proof.
  unfold events_from_attribute, timetable_to_attribute.
  induction 1 as [|e l He Hl IH]; [done|].
  cbn [map mapM attr_time attr_state].
  rewrite fromisoformat_isoformat by done. cbn [mbind option_bind].
  rewrite IH. by destruct e.
Qed.

(** C8. Round trip of the attribute format.  For a timetable [T] whose
    times are valid times of day without microseconds, strictly ascending:
    [_timetable_to_attribute] writes the events of [T] in stored order, a
    time as HH:MM:SS and the state as it is; [_timetable_from_attribute] of
    that list, in an entity that holds any timetable whatever, returns and
    leaves exactly [T], so that writing again gives the same list; and it
    re-sorts: the entries of the list in any other order give [T] as well. *)
Theorem serialization_round_trip (T : list event) (w0 : World) :
  Forall (λ e, datetime.valid (StateEvent.time e)
               ∧ datetime.microsecond (StateEvent.time e) = 0) T →
  strictly_ascending T →
  (_timetable_to_attribute (with_timetable T w0)).1 = Ok (timetable_to_attribute T)
  ∧ Forall2 (λ e a, attr_time a = datetime.isoformat (StateEvent.time e)
                    ∧ String.length (attr_time a) = 8%nat
                    ∧ attr_state a = StateEvent.state e)
            T (timetable_to_attribute T)
  ∧ _timetable_from_attribute (timetable_to_attribute T) w0
    = (Ok (), with_timetable T w0)
  ∧ (_timetable_to_attribute
       (_timetable_from_attribute (timetable_to_attribute T) w0).2).1
    = Ok (timetable_to_attribute T)
  ∧ (∀ attrs, attrs ≡ₚ timetable_to_attribute T →
              _timetable_from_attribute attrs w0 = (Ok (), with_timetable T w0)).
Proof.
  intros Hvalid Hs.
  assert (∀ l, Forall (λ e, datetime.valid (StateEvent.time e)
                            ∧ datetime.microsecond (StateEvent.time e) = 0) l →
               Forall (λ e, datetime.valid (StateEvent.time e)) l) as Hweaken
    by (intros l Hl; eapply Forall_impl; [exact Hl | by intros e [? _]]).
  assert (∀ T', T ≡ₚ T' →
                _timetable_from_attribute (timetable_to_attribute T') w0
                = (Ok (), with_timetable T w0)) as Hload.
  { intros T' Hperm. rewrite timetable_from_attribute_run.
    rewrite events_from_attribute_to_attribute
      by (apply Hweaken; by rewrite <- Hperm).
    do 2 f_equal.
    apply (StronglySorted_unique_strong
             (λ a b, datetime.time_lt (StateEvent.time a) (StateEvent.time b) = true)).
    - intros x1 x2 _ _ Ha Hb. exfalso. time_order.
    - apply sort_by_time_strict. unfold times. rewrite <- Hperm.
      by apply strictly_ascending_NoDup.
    - done.
    - by rewrite sort_by_time_perm. }
  split; [done|]. split; [|split; [|split]].
  - clear Hs Hload. induction Hvalid as [|e l [_ Hus] _ IH]; constructor; [|done].
    cbn [attr_time attr_state]. split; [done|]. split; [|done].
    unfold datetime.isoformat, datetime.isoformat_chars. by rewrite Hus.
  - by apply Hload.
  - by rewrite (Hload T).
  - intros attrs Hattrs. unfold timetable_to_attribute in Hattrs.
    apply Permutation_map_inv in Hattrs as (T' & -> & Hperm).
    by apply Hload.
Qed.

(** C8 on the timetable 08:00 ON, 20:00 OFF, read into a fresh entity. *)
Lemma serialization_round_trip_witness :
  _timetable
    (self (InputTimeTable._timetable_from_attribute
             (InputTimeTable.timetable_to_attribute
                [StateEvent.mk (hms 8 0 0) STATE_ON; StateEvent.mk (hms 20 0 0) STATE_OFF])
             (initial ∅ (λ _, datetime.combine 0%Z (hms 9 0 0)))).2)
  = [StateEvent.mk (hms 8 0 0) STATE_ON; StateEvent.mk (hms 20 0 0) STATE_OFF].
Proof.
  destruct (serialization_round_trip
              [StateEvent.mk (hms 8 0 0) STATE_ON; StateEvent.mk (hms 20 0 0) STATE_OFF]
              (initial ∅ (λ _, datetime.combine 0%Z (hms 9 0 0))))
    as (_ & _ & Hload & _).
  - repeat constructor.
  - repeat constructor.
  - rewrite Hload. reflexivity.
Defined.

End attribute_format.

(* ===================================================================== *)
(** * Further properties of the state and of the schedule                  *)
(* ===================================================================== *)

Section state_further.

Import InputTimeTable.

Implicit Types (now t : datetime.time) (e first final : event)
  (pre post events : list event).

Lemma state_at_first_ahead pre e post final now :
  Forall (λ x, datetime.time_le (StateEvent.time x) now = true) pre →
  datetime.time_lt now (StateEvent.time e) = true →
  last (e :: post) = Some final →
  state_at (pre ++ e :: post) now = carried (StateEvent.state final) pre.
Proof.
  intros Hpre He Hlast. unfold state_at.
  rewrite last_app, Hlast.
  rewrite state_loop_break; [| apply MIDNIGHT_le | done | done].
  unfold carried. by destruct (last pre).
Qed.

Lemma state_at_all_passed events final now :
  Forall (λ x, datetime.time_le (StateEvent.time x) now = true) events →
  last events = Some final →
  state_at events now = StateEvent.state final.
Proof.
  intros Hall Hlast. unfold state_at. rewrite Hlast.
  rewrite state_loop_exhaust by done. by rewrite Hlast.
Qed.

Lemma last_is_Some {A} (x : A) (l : list A) : ∃ y, last (x :: l) = Some y.
Proof.
  destruct (last (x :: l)) as [y|] eqn:Hl; [by exists y|].
  by apply last_None in Hl.
Qed.

(** The state of a timetable with events is the state of one of its events:
    the property never makes up a state. *)
Theorem state_is_an_event_state events now :
  events ≠ [] →
  ∃ e, e ∈ events ∧ state_at events now = StateEvent.state e.
Proof.
  intros Hne.
  destruct (first_ahead now events) as [Hall | (pre & e & post & -> & Hpre & He)].
  - destruct events as [|x rest]; [done|].
    destruct (last_is_Some x rest) as [final Hlast].
    exists final. split; [by apply last_Some_elem_of|].
    by apply state_at_all_passed.
  - destruct (last_is_Some e post) as [final Hlast].
    rewrite (state_at_first_ahead pre e post final) by done.
    unfold carried. destruct (last pre) as [p|] eqn:Hp.
    + exists p. split; [|done]. apply elem_of_app. left. by apply last_Some_elem_of.
    + exists final. split; [|done]. apply elem_of_app. right.
      by apply last_Some_elem_of.
Qed.

Lemma state_is_an_event_state_witness :
  ∃ e, e ∈ [StateEvent.mk (hms 8 0 0) STATE_ON; StateEvent.mk (hms 20 0 0) STATE_OFF]
       ∧ state_at [StateEvent.mk (hms 8 0 0) STATE_ON;
                   StateEvent.mk (hms 20 0 0) STATE_OFF] (hms 3 0 0)
         = StateEvent.state e.
Proof. apply state_is_an_event_state. discriminate. Defined.

(** In a strictly ascending timetable the state at the time of an event is
    the state of that event: a boundary belongs to the event that starts
    there. *)
Theorem state_at_event_time events e :
  strictly_ascending events → e ∈ events →
  state_at events (StateEvent.time e) = StateEvent.state e.
Proof.
  intros Hs Hin. apply list_elem_of_split in Hin as (front & post & ->).
  unfold strictly_ascending in Hs.
  apply StronglySorted_app in Hs as (Hcross & _ & Hs).
  apply StronglySorted_cons in Hs as [Hpost _].
  apply state_at_last_le.
  - apply Forall_forall. intros y Hy. apply time_lt_le.
    apply Hcross; [done | by left].
  - time_order.
  - done.
Qed.

Lemma state_at_event_time_witness :
  state_at [StateEvent.mk (hms 8 0 0) STATE_ON; StateEvent.mk (hms 20 0 0) STATE_OFF]
           (StateEvent.time (StateEvent.mk (hms 20 0 0) STATE_OFF))
  = StateEvent.state (StateEvent.mk (hms 20 0 0) STATE_OFF).
Proof.
  apply state_at_event_time.
  - repeat constructor.
  - right. by left.
Defined.

(** The timer is never armed for the past: the target is later today, at
    the time of an event, or tomorrow at the time of the first event. *)
Theorem timer_never_in_the_past first events (now : datetime.datetime) :
  (datetime.date_of (next_change first events now) = datetime.date_of now
   ∧ datetime.time_lt (datetime.time_of now)
                      (datetime.time_of (next_change first events now)) = true
   ∧ ∃ e, e ∈ events
          ∧ datetime.time_of (next_change first events now) = StateEvent.time e)
  ∨ (datetime.date_of (next_change first events now) = (datetime.date_of now + 1)%Z
     ∧ datetime.time_of (next_change first events now) = StateEvent.time first).
Proof.
  unfold next_change.
  destruct (first_ahead (datetime.time_of now) events)
    as [Hall | (pre & e & post & -> & Hpre & He)].
  - right. by rewrite schedule_loop_exhaust.
  - left. rewrite schedule_loop_break; [| apply MIDNIGHT_le | done | done].
    simpl. repeat split; [done|]. exists e. split; [|done].
    apply elem_of_app. right. by left.
Qed.

(** No transition is missed: from the moment the timer is armed until its
    target the state does not change.  When the target is today, the state
    at every instant from now up to the target is the state now; when it is
    tomorrow, so is the state for the rest of today and tomorrow before the
    first event. *)
Theorem state_steady_until_timer first events (now : datetime.datetime) t :
  head events = Some first →
  (datetime.date_of (next_change first events now) = datetime.date_of now →
   datetime.time_le (datetime.time_of now) t = true →
   datetime.time_lt t (datetime.time_of (next_change first events now)) = true →
   state_at events t = state_at events (datetime.time_of now))
  ∧ (datetime.date_of (next_change first events now) ≠ datetime.date_of now →
     datetime.time_le (datetime.time_of now) t = true
     ∨ datetime.time_lt t (StateEvent.time first) = true →
     state_at events t = state_at events (datetime.time_of now)).
Proof.
  intros Hhead. apply head_Some in Hhead as [rest ->].
  unfold next_change.
  destruct (first_ahead (datetime.time_of now) (first :: rest))
    as [Hall | (pre & e & post & Heq & Hpre & He)].
  - rewrite schedule_loop_exhaust by done.
    unfold datetime.add_days. simpl. split; [intros; lia|].
    intros _ Ht.
    destruct (last_is_Some first rest) as [final Hlast].
    rewrite (state_at_all_passed _ final (datetime.time_of now)) by done.
    destruct Ht as [Ht|Ht].
    + apply state_at_all_passed; [|done].
      eapply Forall_impl; [exact Hall|]. simpl. intros y Hy.
      by eapply time_le_trans.
    + apply (state_at_first_ahead [] first rest final t); [constructor|done|done].
  - rewrite Heq.
    rewrite schedule_loop_break; [| apply MIDNIGHT_le | done | done].
    simpl. split; [|done].
    intros _ Hle Hlt.
    destruct (last_is_Some e post) as [final Hlast].
    rewrite (state_at_first_ahead pre e post final t); [| |done|done].
    + by rewrite (state_at_first_ahead pre e post final (datetime.time_of now)).
    + eapply Forall_impl; [exact Hpre|]. simpl. intros y Hy.
      by eapply time_le_trans.
Qed.

Lemma state_steady_until_timer_witness :
  state_at [StateEvent.mk (hms 6 0 0) STATE_ON; StateEvent.mk (hms 18 0 0) STATE_OFF]
           (hms 17 59 59)
  = state_at [StateEvent.mk (hms 6 0 0) STATE_ON; StateEvent.mk (hms 18 0 0) STATE_OFF]
             (datetime.time_of (datetime.combine 0%Z (hms 9 0 0))).
Proof.
  refine (proj1 (state_steady_until_timer
                   (StateEvent.mk (hms 6 0 0) STATE_ON)
                   [StateEvent.mk (hms 6 0 0) STATE_ON;
                    StateEvent.mk (hms 18 0 0) STATE_OFF]
                   (datetime.combine 0%Z (hms 9 0 0)) (hms 17 59 59) _) _ _ _);
    reflexivity.
Defined.

End state_further.

(* ===================================================================== *)
(** * How the services compose                                             *)
(* ===================================================================== *)

Section timetable_algebra.

Import InputTimeTable.

Implicit Types (time : datetime.time) (state : string) (e x : event)
  (l pre post : list event).

Lemma after_all_timetable (calls : list call) (w : World) :
  _timetable (self (after_all calls w))
  = timetable_after_all calls (_timetable (self w)).
Proof.
  revert w. induction calls as [|c calls IH]; intros w; [done|].
  simpl. by rewrite IH, after_timetable.
Qed.

Lemma strictly_ascending_time_inj l x y :
  strictly_ascending l → x ∈ l → y ∈ l →
  StateEvent.time x = StateEvent.time y → x = y.
Proof.
  intros Hs Hx Hy Heq.
  apply list_elem_of_split in Hx as (l1 & l2 & ->).
  unfold strictly_ascending in Hs.
  apply StronglySorted_app in Hs as (Hcross & _ & Hs).
  apply StronglySorted_cons in Hs as [Hpost _].
  apply elem_of_app in Hy as [Hy|Hy].
  - assert (datetime.time_lt (StateEvent.time y) (StateEvent.time x) = true)
      as Hlt by (apply Hcross; [done | by left]).
    apply time_lt_ne in Hlt. congruence.
  - apply elem_of_cons in Hy as [->|Hy]; [done|].
    rewrite Forall_forall in Hpost. specialize (Hpost y Hy).
    apply time_lt_ne in Hpost. congruence.
Qed.

(** Two strictly ascending timetables with the same events are equal. *)
Lemma strictly_ascending_ext l1 l2 :
  strictly_ascending l1 → strictly_ascending l2 →
  (∀ x, x ∈ l1 ↔ x ∈ l2) → l1 = l2.
Proof.
  intros H1 H2 Hext.
  apply (StronglySorted_unique_strong
           (λ a b, datetime.time_lt (StateEvent.time a) (StateEvent.time b) = true));
    [|done|done|].
  - intros x1 x2 _ _ Ha Hb. exfalso. time_order.
  - apply NoDup_Permutation; [| |done].
    + eapply NoDup_fmap_1. apply (strictly_ascending_NoDup l1 H1).
    + eapply NoDup_fmap_1. apply (strictly_ascending_NoDup l2 H2).
Qed.

Lemma elem_of_times x l : x ∈ l → StateEvent.time x ∈ times l.
Proof. intros. unfold times. apply list_elem_of_fmap. by exists x. Qed.

(** The events [set] leaves in a strictly ascending timetable: the new
    one, and the old ones at other times. *)
Lemma elem_of_set_result time state l x :
  strictly_ascending l →
  x ∈ set_result time state l
  ↔ x = StateEvent.mk time state ∨ (x ∈ l ∧ StateEvent.time x ≠ time).
Proof.
  intros Hs. destruct (decide (time ∈ times l)) as [Hin|Hnotin].
  - destruct (first_at _ _ Hin) as (pre & e & post & -> & He & Hpre).
    rewrite set_result_found by done.
    assert (∀ y, y ∈ pre ++ e :: post → StateEvent.time y = time → y = e) as Huniq.
    { intros y Hy Hty. apply (strictly_ascending_time_inj _ _ _ Hs Hy); [|congruence].
      apply elem_of_app. right. by left. }
    rewrite !elem_of_app, !elem_of_cons. split.
    + intros [Hx|[->|Hx]]; [right|by left|right].
      * split; [by left|]. intros Htx. apply Hpre. rewrite <- Htx.
        by apply elem_of_times.
      * split; [by right; right|]. intros Htx.
        assert (x = e) as -> by (apply Huniq; [apply elem_of_app; right; by right|done]).
        unfold strictly_ascending in Hs.
        apply StronglySorted_app in Hs as (_ & _ & Hs).
        apply StronglySorted_cons in Hs as [Hpost _].
        rewrite Forall_forall in Hpost. specialize (Hpost e Hx). time_order.
    + intros [->|[[Hx|[->|Hx]] Hne]]; [by right; left|by left|done|by right; right].
  - rewrite set_result_new by done.
    rewrite sort_by_time_perm, elem_of_app, list_elem_of_singleton. split.
    + intros [Hx| ->]; [right|by left]. split; [done|].
      intros Htx. apply Hnotin. rewrite <- Htx. by apply elem_of_times.
    + intros [->|[Hx _]]; [by right|by left].
Qed.

Lemma unset_loop_is_Some time l :
  time ∈ times l → ∃ l', unset_loop time l = Some l'.
Proof.
  intros Hin. destruct (first_at _ _ Hin) as (pre & e & post & -> & He & Hpre).
  exists (pre ++ post). by apply unset_loop_found.
Qed.

(** The events [unset] leaves in a strictly ascending timetable. *)
Lemma elem_of_unset_loop time l l' x :
  strictly_ascending l → unset_loop time l = Some l' →
  x ∈ l' ↔ x ∈ l ∧ StateEvent.time x ≠ time.
Proof.
  intros Hs Hl'. destruct (decide (time ∈ times l)) as [Hin|Hnotin];
    [|by rewrite unset_loop_None in Hl'].
  destruct (first_at _ _ Hin) as (pre & e & post & -> & He & Hpre).
  rewrite unset_loop_found in Hl' by done. injection Hl' as <-.
  rewrite !elem_of_app, elem_of_cons. split.
  - intros [Hx|Hx].
    + split; [by left|]. intros Htx. apply Hpre. rewrite <- Htx.
      by apply elem_of_times.
    + split; [by right; right|]. intros Htx.
      unfold strictly_ascending in Hs.
      apply StronglySorted_app in Hs as (_ & _ & Hs).
      apply StronglySorted_cons in Hs as [Hpost _].
      rewrite Forall_forall in Hpost. specialize (Hpost x Hx). time_order.
  - intros [[Hx|[->|Hx]] Hne]; [by left|done|by right].
Qed.

(** The event list after a sequence of calls depends on nothing but the
    event list before and the calls: not on the clock, the configuration,
    the [editable] flag, or the timer. *)
Theorem timetable_depends_on_calls_only (calls : list call) (w1 w2 : World) :
  _timetable (self w1) = _timetable (self w2) →
  _timetable (self (after_all calls w1)) = _timetable (self (after_all calls w2)).
Proof. intros Heq. by rewrite !after_all_timetable, Heq. Qed.

Lemma timetable_depends_on_calls_only_witness :
  _timetable (self (after_all [ServiceSet (hms 8 0 0) STATE_ON]
                      (initial ∅ (λ _, datetime.combine 0%Z (hms 9 0 0)))))
  = _timetable (self (after_all [ServiceSet (hms 8 0 0) STATE_ON]
                        (world_at [] (datetime.combine 7%Z (hms 23 0 0))))).
Proof. apply timetable_depends_on_calls_only. reflexivity. Defined.

(** [unset] undoes [set]: setting an event at a time the strictly
    ascending timetable does not have, then unsetting that time, gives the
    timetable back. *)
Theorem unset_undoes_set (w : World) time state :
  strictly_ascending (_timetable (self w)) →
  time ∉ times (_timetable (self w)) →
  _timetable (self (after_all [ServiceSet time state; ServiceUnset time] w))
  = _timetable (self w).
Proof.
  intros Hs Hnotin. rewrite after_all_timetable. simpl.
  set (l := _timetable (self w)) in *.
  pose proof (set_result_strictly_ascending time state l Hs) as Hs1.
  assert (time ∈ times (set_result time state l)) as Hin.
  { change time with (StateEvent.time (StateEvent.mk time state)) at 1.
    apply elem_of_times, elem_of_set_result; [done|]. by left. }
  destruct (unset_loop_is_Some _ _ Hin) as [l' Hl']. rewrite Hl'. simpl.
  apply strictly_ascending_ext; [by eapply unset_loop_strictly_ascending|done|].
  intros x. rewrite (elem_of_unset_loop _ _ _ _ Hs1 Hl'), elem_of_set_result by done.
  split.
  - intros [[->|[Hx _]] Hne]; done.
  - intros Hx. assert (StateEvent.time x ≠ time) as Hne.
    { intros Htx. apply Hnotin. rewrite <- Htx. by apply elem_of_times. }
    split; [right|]; done.
Qed.

Lemma unset_undoes_set_witness :
  _timetable (self (after_all [ServiceSet (hms 12 0 0) STATE_ON; ServiceUnset (hms 12 0 0)]
     (world_at [StateEvent.mk (hms 8 0 0) STATE_ON; StateEvent.mk (hms 20 0 0) STATE_OFF]
               (datetime.combine 0%Z (hms 9 0 0)))))
  = _timetable (self
     (world_at [StateEvent.mk (hms 8 0 0) STATE_ON; StateEvent.mk (hms 20 0 0) STATE_OFF]
               (datetime.combine 0%Z (hms 9 0 0)))).
Proof.
  apply unset_undoes_set.
  - repeat constructor.
  - simpl. intros Hin.
    repeat (apply elem_of_cons in Hin as [Hin|Hin]; [discriminate Hin|]).
    by apply elem_of_nil in Hin.
Defined.

(** [set] undoes [unset]: unsetting an event of a strictly ascending
    timetable and setting it again gives the timetable back. *)
Theorem set_undoes_unset (w : World) e :
  strictly_ascending (_timetable (self w)) →
  e ∈ _timetable (self w) →
  _timetable (self (after_all [ServiceUnset (StateEvent.time e);
                               ServiceSet (StateEvent.time e) (StateEvent.state e)] w))
  = _timetable (self w).
Proof.
  intros Hs He. rewrite after_all_timetable. simpl.
  set (l := _timetable (self w)) in *.
  destruct (unset_loop_is_Some _ _ (elem_of_times _ _ He)) as [l' Hl']. rewrite Hl'. simpl.
  pose proof (unset_loop_strictly_ascending _ _ _ Hs Hl') as Hs'.
  apply strictly_ascending_ext; [by apply set_result_strictly_ascending|done|].
  intros x. rewrite elem_of_set_result, (elem_of_unset_loop _ _ _ _ Hs Hl') by done.
  assert (StateEvent.mk (StateEvent.time e) (StateEvent.state e) = e) as ->
    by (by destruct e).
  split.
  - intros [->|[[Hx _] _]]; done.
  - intros Hx. destruct (decide (StateEvent.time x = StateEvent.time e)) as [Heq|Hne].
    + left. by apply (strictly_ascending_time_inj l).
    + right. done.
Qed.

Lemma set_undoes_unset_witness :
  _timetable (self (after_all
     [ServiceUnset (StateEvent.time (StateEvent.mk (hms 8 0 0) STATE_ON));
      ServiceSet (StateEvent.time (StateEvent.mk (hms 8 0 0) STATE_ON))
                 (StateEvent.state (StateEvent.mk (hms 8 0 0) STATE_ON))]
     (world_at [StateEvent.mk (hms 8 0 0) STATE_ON; StateEvent.mk (hms 20 0 0) STATE_OFF]
               (datetime.combine 0%Z (hms 9 0 0)))))
  = _timetable (self
     (world_at [StateEvent.mk (hms 8 0 0) STATE_ON; StateEvent.mk (hms 20 0 0) STATE_OFF]
               (datetime.combine 0%Z (hms 9 0 0)))).
Proof.
  apply set_undoes_unset.
  - repeat constructor.
  - by left.
Defined.

(** The last [set] at a time wins: in a strictly ascending timetable,
    setting a time twice leaves what the second call alone would leave. *)
Theorem last_set_wins (w : World) time state1 state2 :
  strictly_ascending (_timetable (self w)) →
  _timetable (self (after_all [ServiceSet time state1; ServiceSet time state2] w))
  = _timetable (self (after_all [ServiceSet time state2] w)).
Proof.
  intros Hs. rewrite !after_all_timetable. simpl.
  set (l := _timetable (self w)) in *.
  pose proof (set_result_strictly_ascending time state1 l Hs) as Hs1.
  apply strictly_ascending_ext; try by apply set_result_strictly_ascending.
  intros x. rewrite !elem_of_set_result by done.
  split.
  - intros [->|[[->|[Hx _]] Hne]]; [by left|done|by right].
  - intros [->|[Hx Hne]]; [by left|]. right. split; [right|]; done.
Qed.

Lemma last_set_wins_witness :
  _timetable (self (after_all [ServiceSet (hms 8 0 0) STATE_ON;
                               ServiceSet (hms 8 0 0) STATE_OFF]
                      (initial ∅ (λ _, datetime.combine 0%Z (hms 9 0 0)))))
  = _timetable (self (after_all [ServiceSet (hms 8 0 0) STATE_OFF]
                        (initial ∅ (λ _, datetime.combine 0%Z (hms 9 0 0))))).
Proof. apply last_set_wins. constructor. Defined.

(** [set] calls at different times commute on a strictly ascending
    timetable. *)
Theorem sets_at_different_times_commute (w : World) time1 state1 time2 state2 :
  strictly_ascending (_timetable (self w)) →
  time1 ≠ time2 →
  _timetable (self (after_all [ServiceSet time1 state1; ServiceSet time2 state2] w))
  = _timetable (self (after_all [ServiceSet time2 state2; ServiceSet time1 state1] w)).
Proof.
  intros Hs Hne. rewrite !after_all_timetable. simpl.
  set (l := _timetable (self w)) in *.
  pose proof (set_result_strictly_ascending time1 state1 l Hs) as Hs1.
  pose proof (set_result_strictly_ascending time2 state2 l Hs) as Hs2.
  apply strictly_ascending_ext; try by apply set_result_strictly_ascending.
  intros x. rewrite !elem_of_set_result by done.
  split.
  - intros [->|[[->|[Hx Hn1]] Hn2]].
    + right. split; [by left|]. simpl. congruence.
    + by left.
    + right. split; [right|]; done.
  - intros [->|[[->|[Hx Hn2]] Hn1]].
    + right. split; [by left|]. simpl. congruence.
    + by left.
    + right. split; [right|]; done.
Qed.

Lemma sets_at_different_times_commute_witness :
  _timetable (self (after_all [ServiceSet (hms 20 0 0) STATE_OFF;
                               ServiceSet (hms 8 0 0) STATE_ON]
                      (initial ∅ (λ _, datetime.combine 0%Z (hms 9 0 0)))))
  = _timetable (self (after_all [ServiceSet (hms 8 0 0) STATE_ON;
                                 ServiceSet (hms 20 0 0) STATE_OFF]
                        (initial ∅ (λ _, datetime.combine 0%Z (hms 9 0 0))))).
Proof.
  apply sets_at_different_times_commute.
  - constructor.
  - discriminate.
Defined.

End timetable_algebra.

(* ===================================================================== *)
(** * The shape of a call                                                  *)
(* ===================================================================== *)

Section call_shape.

Import InputTimeTable.

Lemma updated_editable (w : World) :
  editable (self (updated w)) = editable (self w).
Proof.
  unfold updated, written, scheduled. simpl.
  by destruct (_timetable (self w)) as [|a [|b l]].
Qed.

Lemma updated_clock (w : World) : clock (updated w) = clock w.
Proof.
  unfold updated, written, scheduled. simpl.
  by destruct (_timetable (self w)) as [|a [|b l]].
Qed.

Lemma publications_cancel_trace (s : entity) (tr : list host_event) :
  publications (cancel_trace s tr) = publications tr.
Proof. unfold cancel_trace. by destruct (_event_unsub s). Qed.

Lemma updated_publications (w : World) :
  publications (trace (updated w)) = S (publications (trace w)).
Proof.
  unfold updated, written, scheduled. simpl.
  destruct (_timetable (self w)) as [|a [|b l]]; simpl;
    by rewrite publications_cancel_trace.
Qed.

(** What [_update_state] publishes: the state of the timetable at a reading
    of the clock, with the attributes of the entity. *)
Lemma updated_head (w : World) :
  ∃ n, head (trace (updated w))
       = Some (WriteState
                 (state_at (_timetable (self (updated w)))
                           (datetime.time_of (clock w n)))
                 (mk_attributes (editable (self (updated w)))
                    (timetable_to_attribute (_timetable (self (updated w)))))).
Proof.
  rewrite updated_timetable, updated_editable.
  unfold updated, written, scheduled, published. simpl.
  destruct (_timetable (self w)) as [|a [|b l]]; simpl; eauto.
Qed.

Lemma tracked_fired (h : handle) (w : World) :
  timer_tracked w → timer_tracked (fired h w).
Proof.
  intros Htr h' p Hin. simpl in Hin.
  apply list_elem_of_filter in Hin as [_ Hin]. by apply (Htr h' p).
Qed.

(** Every call either raises and leaves the world as it was, or returns
    without touching the world, or prepares a world (a new timetable, a new
    configuration, or a fired timer) and runs [_update_state] on it. *)
Lemma perform_shape (c : call) (w : World) :
  (∃ e, perform c w = (Raise e, w))
  ∨ (perform c w = (Ok (), w) ∧ ¬ reaches_update c w)
  ∨ (reaches_update c w
     ∧ ∃ w1, perform c w = (Ok (), updated w1)
             ∧ editable (self w1) = editable (self w)
             ∧ clock w1 = clock w
             ∧ publications (trace w1) = publications (trace w)
             ∧ _timetable (self w1) = timetable_after c (_timetable (self w))
             ∧ _config (self w1)
               = match c with UpdateConfig config => config | _ => _config (self w) end
             ∧ (timer_tracked w → timer_tracked w1)).
Proof.
  unfold perform, timetable_after, reaches_update.
  destruct c as [last|time state|time| |timetable|config|h|].
  - rewrite async_added_to_hass_run. destruct last as [[|ev rest]|].
    + right. right. split; [done|]. by exists w.
    + destruct (events_from_attribute (ev :: rest)) as [events|].
      * right. right. split; [done|].
        by exists (with_timetable (sort_by_time events) w).
      * left. by eexists.
    + right. right. split; [done|]. by exists w.
  - rewrite async_set_run. right. right. split; [done|].
    by exists (with_timetable (set_result time state (_timetable (self w))) w).
  - rewrite async_unset_run.
    destruct (unset_loop time (_timetable (self w))) as [events|].
    + right. right. split; [done|]. by exists (with_timetable events w).
    + left. by eexists.
  - rewrite async_reset_run. right. right. split; [done|].
    by exists (with_timetable [] w).
  - rewrite async_reconfig_run. destruct (has_duplicate_time timetable).
    + left. by eexists.
    + right. right. split; [done|].
      by exists (with_timetable (sort_by_time (events_of_conf timetable)) w).
  - rewrite async_update_config_run. right. right. split; [done|].
    by exists (with_config config w).
  - rewrite timer_fires_run. case_bool_decide.
    + right. right. split; [done|]. exists (fired h w).
      repeat split; try done. apply tracked_fired.
    + right. left. done.
  - right. left. split; [done|]. by intros [].
Qed.

(** All or nothing for the services: a service call (or a timer firing, a
    configuration update, the removal) that raises leaves the whole world as
    it found it, the timetable, the timer and the published state included.
    The calls that raise are [unset] at a missing time and [reconfig] with a
    repeated time; both raise before they assign anything. *)
Theorem raising_call_changes_nothing (c : call) (w : World) (e : Exc) :
  restores c = false →
  (perform c w).1 = Raise e →
  after c w = w
  ∧ ((∃ time, c = ServiceUnset time ∧ time ∉ times (_timetable (self w)))
     ∨ (∃ timetable, c = ServiceReconfig timetable
                     ∧ ¬ NoDup (map conf_time timetable))).
Proof.
  unfold after, perform.
  destruct c as [last|time state|time| |timetable|config|h|]; intros Hc Hraise;
    try discriminate Hc.
  - rewrite async_set_run in Hraise. discriminate Hraise.
  - rewrite async_unset_run in Hraise |- *.
    destruct (unset_loop time (_timetable (self w))) as [l'|] eqn:Hl';
      [discriminate Hraise|].
    split; [done|]. left. exists time. split; [done|]. intros Hin.
    destruct (unset_loop_is_Some _ _ Hin) as [l' Hsome]. congruence.
  - rewrite async_reset_run in Hraise. discriminate Hraise.
  - rewrite async_reconfig_run in Hraise |- *.
    destruct (has_duplicate_time timetable) eqn:Hdup; [|discriminate Hraise].
    split; [done|]. right. exists timetable. split; [done|]. intros Hnd.
    apply has_duplicate_time_iff in Hnd. congruence.
  - rewrite async_update_config_run in Hraise. discriminate Hraise.
  - rewrite timer_fires_run in Hraise. by case_bool_decide.
  - discriminate Hraise.
Qed.

Lemma raising_call_changes_nothing_witness :
  after (ServiceUnset (hms 9 0 0))
        (world_at [StateEvent.mk (hms 8 0 0) STATE_ON] (datetime.combine 0%Z (hms 9 0 0)))
  = world_at [StateEvent.mk (hms 8 0 0) STATE_ON] (datetime.combine 0%Z (hms 9 0 0)).
Proof.
  refine (proj1 (raising_call_changes_nothing _ _
                   (Invalid "The time 09:00:00 doesn't exist") _ _)).
  - reflexivity.
  - reflexivity.
Defined.

(** A call that returns and reaches [_update_state] publishes exactly once,
    last of all, and what it publishes is the state of the timetable it
    leaves, at a reading of the clock, together with the [editable] flag and
    the attribute form of that timetable. *)
Theorem returning_call_publishes_once (c : call) (w : World) :
  (perform c w).1 = Ok () →
  reaches_update c w →
  publications (trace (after c w)) = S (publications (trace w))
  ∧ ∃ n, head (trace (after c w))
         = Some (WriteState
                   (state_at (_timetable (self (after c w)))
                             (datetime.time_of (clock w n)))
                   (mk_attributes (editable (self (after c w)))
                      (timetable_to_attribute (_timetable (self (after c w)))))).
Proof.
  unfold after. intros Hok Hreach.
  destruct (perform_shape c w)
    as [[e Hp] | [[_ Hno] | (_ & w1 & Hp & _ & Hclock & Hpub & _)]].
  - rewrite Hp in Hok. discriminate Hok.
  - done.
  - rewrite Hp. cbn [snd]. rewrite updated_publications, Hpub. split; [done|].
    destruct (updated_head w1) as [n Hn]. exists n. by rewrite <- Hclock.
Qed.

Lemma returning_call_publishes_once_witness :
  publications (trace (after (ServiceSet (hms 8 0 0) STATE_ON)
                             (initial ∅ (λ _, datetime.combine 0%Z (hms 9 0 0)))))
  = S (publications (trace (initial ∅ (λ _, datetime.combine 0%Z (hms 9 0 0))))).
Proof.
  refine (proj1 (returning_call_publishes_once _ _ _ _)).
  - reflexivity.
  - exact I.
Defined.

(** No call changes the [editable] flag, and only [async_update_config]
    changes the configuration, hence the name: a sequence of calls without a
    configuration update leaves both as they were, and a configuration
    update makes the name the one of the new configuration. *)
Theorem editable_and_config_frame (calls : list call) (w : World) :
  editable (self (after_all calls w)) = editable (self w)
  ∧ (Forall (λ c, ∀ config, c ≠ UpdateConfig config) calls →
     _config (self (after_all calls w)) = _config (self w)
     ∧ name (self (after_all calls w)) = name (self w))
  ∧ (∀ config, name (self (after (UpdateConfig config) (after_all calls w)))
               = config !! CONF_NAME).
Proof.
  assert (∀ c w0, editable (self (after c w0)) = editable (self w0)
                  ∧ ((∀ config, c ≠ UpdateConfig config) →
                     _config (self (after c w0)) = _config (self w0))) as Hstep.
  { intros c w0. unfold after.
    destruct (perform_shape c w0)
      as [[e ->] | [[-> _] | (_ & w1 & -> & Hed & _ & _ & _ & Hcfg & _)]];
      cbn [snd]; [done|done|].
    rewrite updated_editable, updated_config, Hed, Hcfg.
    split; [done|]. intros Hc. destruct c; try done. by destruct (Hc config). }
  split; [|split].
  - revert w. induction calls as [|c calls IH]; intros w; [done|].
    simpl. rewrite IH. apply Hstep.
  - revert w. induction calls as [|c calls IH]; intros w Hcalls; [done|].
    apply Forall_cons in Hcalls as [Hc Hcalls]. simpl.
    destruct (IH (after c w) Hcalls) as [Hcfg _].
    unfold name. rewrite Hcfg.
    by rewrite (proj2 (Hstep c w) Hc).
  - intros config. unfold after, perform, name.
    rewrite async_update_config_run. cbn [snd]. by rewrite updated_config.
Qed.

Lemma editable_and_config_frame_witness :
  _config (self (after_all [ServiceSet (hms 8 0 0) STATE_ON; ServiceReset]
                   (initial {[CONF_NAME := "heating"]}
                            (λ _, datetime.combine 0%Z (hms 9 0 0)))))
  = {[CONF_NAME := "heating"]}.
Proof.
  refine (proj1 (proj1 (proj2 (editable_and_config_frame _ _)) _)).
  repeat constructor; discriminate.
Defined.

Lemma after_clock (c : call) (w : World) : clock (after c w) = clock w.
Proof.
  unfold after.
  destruct (perform_shape c w)
    as [[e ->] | [[-> _] | (_ & w1 & -> & _ & Hclock & _)]]; cbn [snd]; [done|done|].
  by rewrite updated_clock.
Qed.

Lemma after_all_clock (calls : list call) (w : World) :
  clock (after_all calls w) = clock w.
Proof.
  revert w. induction calls as [|c calls IH]; intros w; [done|].
  simpl. by rewrite IH, after_clock.
Qed.

(** The timer is armed exactly when it is needed.  In the life of an
    entity, after every call that returns and reaches [_update_state]: with
    fewer than two events no timer is outstanding; with two or more exactly
    one is, the entity keeps its callable, and its target is [next_change]
    of the timetable at a reading of the clock. *)
Theorem timer_armed_exactly_when_needed
    (config : gmap string string) (clk : nat → datetime.datetime)
    (calls : list call) (c : call) :
  (perform c (after_all calls (initial config clk))).1 = Ok () →
  reaches_update c (after_all calls (initial config clk)) →
  (length (_timetable (self (after c (after_all calls (initial config clk))))) < 2 →
   outstanding (trace (after c (after_all calls (initial config clk)))) = []
   ∧ _event_unsub (self (after c (after_all calls (initial config clk)))) = None)
  ∧ (2 ≤ length (_timetable (self (after c (after_all calls (initial config clk))))) →
     ∃ h first n,
       head (_timetable (self (after c (after_all calls (initial config clk)))))
       = Some first
       ∧ outstanding (trace (after c (after_all calls (initial config clk))))
         = [(h, next_change first
                  (_timetable (self (after c (after_all calls (initial config clk)))))
                  (clk n))]
       ∧ _event_unsub (self (after c (after_all calls (initial config clk))))
         = Some h).
Proof.
  set (w := after_all calls (initial config clk)).
  assert (timer_tracked w ∧ clock w = clk) as [Htr Hclk].
  { split; [apply (discipline_after_all calls _ (discipline_initial config clk))|].
    subst w. by rewrite after_all_clock. }
  intros Hok Hreach. unfold after.
  destruct (perform_shape c w)
    as [[e Hp] | [[_ Hno] | (_ & w1 & Hp & _ & Hclock & _ & _ & _ & Htr1)]].
  - rewrite Hp in Hok. discriminate Hok.
  - done.
  - rewrite Hp. cbn [snd]. rewrite updated_timetable.
    pose proof (outstanding_cancel_trace w1 (Htr1 Htr)) as Hnone.
    unfold updated, written, scheduled. simpl.
    destruct (_timetable (self w1)) as [|a [|b l]]; simpl; rewrite Hnone.
    + split; [done | intros; lia].
    + split; [done | intros; lia].
    + split; [intros; lia|]. intros _.
      exists (next_handle w1), a, (ticks w1). by rewrite <- Hclk, <- Hclock.
Qed.

Lemma timer_armed_exactly_when_needed_witness :
  ∃ h first n,
    head (_timetable (self (after (ServiceSet (hms 18 0 0) STATE_OFF)
            (after_all [ServiceSet (hms 6 0 0) STATE_ON]
                       (initial ∅ (λ _, datetime.combine 0%Z (hms 9 0 0)))))))
    = Some first
    ∧ outstanding (trace (after (ServiceSet (hms 18 0 0) STATE_OFF)
            (after_all [ServiceSet (hms 6 0 0) STATE_ON]
                       (initial ∅ (λ _, datetime.combine 0%Z (hms 9 0 0))))))
      = [(h, InputTimeTable.next_change first
               (_timetable (self (after (ServiceSet (hms 18 0 0) STATE_OFF)
                  (after_all [ServiceSet (hms 6 0 0) STATE_ON]
                             (initial ∅ (λ _, datetime.combine 0%Z (hms 9 0 0)))))))
               ((λ _ : nat, datetime.combine 0%Z (hms 9 0 0)) n))]
    ∧ _event_unsub (self (after (ServiceSet (hms 18 0 0) STATE_OFF)
            (after_all [ServiceSet (hms 6 0 0) STATE_ON]
                       (initial ∅ (λ _, datetime.combine 0%Z (hms 9 0 0))))))
      = Some h.
Proof.
  refine (proj2 (timer_armed_exactly_when_needed ∅
                   (λ _, datetime.combine 0%Z (hms 9 0 0))
                   [ServiceSet (hms 6 0 0) STATE_ON]
                   (ServiceSet (hms 18 0 0) STATE_OFF) _ _) _).
  - reflexivity.
  - exact I.
  - vm_compute. lia.
Defined.

(** [unset] is not idempotent: once it has removed the event at a time of
    a strictly ascending timetable, a second [unset] at that time finds
    none, raises, and changes nothing. *)
Theorem second_unset_raises (w : World) (time : datetime.time) :
  strictly_ascending (_timetable (self w)) →
  time ∈ times (_timetable (self w)) →
  (async_unset time w).1 = Ok ()
  ∧ async_unset time (async_unset time w).2
    = (Raise (Invalid ("The time " ++ datetime.isoformat time ++ " doesn't exist")),
       (async_unset time w).2).
Proof.
  intros Hs Hin. rewrite (async_unset_run time w).
  destruct (first_at _ _ Hin) as (pre & e & post & Htt & He & Hpre).
  rewrite Htt, unset_loop_found by done. cbn [fst snd]. split; [done|].
  rewrite async_unset_run, updated_timetable, with_timetable_timetable.
  rewrite unset_loop_None; [done|].
  rewrite Htt in Hs. unfold strictly_ascending in Hs.
  apply StronglySorted_app in Hs as (_ & _ & Hs).
  apply StronglySorted_cons in Hs as [Hpost _].
  rewrite times_app. intros [Hin'|Hin']%elem_of_app; [done|].
  unfold times in Hin'. apply list_elem_of_fmap in Hin' as (y & Hy & Hyin).
  rewrite Forall_forall in Hpost. specialize (Hpost y Hyin).
  apply time_lt_ne in Hpost. congruence.
Qed.

Lemma second_unset_raises_witness :
  (InputTimeTable.async_unset (hms 8 0 0)
     (world_at [StateEvent.mk (hms 8 0 0) STATE_ON; StateEvent.mk (hms 20 0 0) STATE_OFF]
               (datetime.combine 0%Z (hms 9 0 0)))).1
  = Ok ().
Proof.
  refine (proj1 (second_unset_raises _ _ _ _)).
  - repeat constructor.
  - by left.
Defined.

End call_shape.

(* ===================================================================== *)
(** * Further properties of [reconfig], [reset] and the restore            *)
(* ===================================================================== *)

Section wholesale.

Import InputTimeTable.

Lemma reconfig_timetable (timetable : list conf_event) (w : World) :
  NoDup (map conf_time timetable) →
  _timetable (self (after (ServiceReconfig timetable) w))
  = sort_by_time (events_of_conf timetable).
Proof.
  intros Hnd. rewrite after_timetable. simpl.
  by rewrite (proj2 (has_duplicate_time_iff timetable) Hnd).
Qed.

Lemma times_events_of_conf (timetable : list conf_event) :
  times (events_of_conf timetable) = map conf_time timetable.
Proof. unfold times, events_of_conf. by rewrite map_map. Qed.

(** [reconfig] replaces wholesale and does not care about the order of its
    input: two inputs with distinct times that are permutations of each
    other leave the same timetable, whatever the timetables before. *)
Theorem reconfig_ignores_order_and_history
    (w1 w2 : World) (timetable1 timetable2 : list conf_event) :
  NoDup (map conf_time timetable1) →
  timetable1 ≡ₚ timetable2 →
  _timetable (self (after (ServiceReconfig timetable1) w1))
  = _timetable (self (after (ServiceReconfig timetable2) w2)).
Proof.
  intros Hnd Hperm.
  assert (NoDup (map conf_time timetable2)) as Hnd2 by (by rewrite <- Hperm).
  rewrite !reconfig_timetable by done.
  apply (StronglySorted_unique_strong
           (λ a b, datetime.time_lt (StateEvent.time a) (StateEvent.time b) = true)).
  - intros x1 x2 _ _ Ha Hb. exfalso. time_order.
  - apply sort_by_time_strict. by rewrite times_events_of_conf.
  - apply sort_by_time_strict. by rewrite times_events_of_conf.
  - rewrite !sort_by_time_perm. unfold events_of_conf. by rewrite Hperm.
Qed.

Lemma reconfig_ignores_order_and_history_witness :
  _timetable (self (after (ServiceReconfig [mk_conf (hms 20 0 0) STATE_OFF;
                                            mk_conf (hms 8 0 0) STATE_ON])
                          (initial ∅ (λ _, datetime.combine 0%Z (hms 9 0 0)))))
  = _timetable (self (after (ServiceReconfig [mk_conf (hms 8 0 0) STATE_ON;
                                              mk_conf (hms 20 0 0) STATE_OFF])
                            (world_at [StateEvent.mk (hms 12 0 0) STATE_ON]
                                      (datetime.combine 0%Z (hms 9 0 0))))).
Proof.
  apply reconfig_ignores_order_and_history.
  - simpl. constructor.
    + intros Hin. apply elem_of_cons in Hin as [Hin|Hin]; [discriminate Hin|].
      by apply elem_of_nil in Hin.
    + constructor; [apply not_elem_of_nil | constructor].
  - apply Permutation_swap.
Defined.

(** The events a run of [set] calls leaves, one call per entry of a list
    with distinct times. *)
Lemma sets_elements (cs : list conf_event) (l0 : list event) :
  strictly_ascending l0 →
  NoDup (map conf_time cs) →
  strictly_ascending
    (timetable_after_all
       (map (λ c, ServiceSet (conf_time c) (conf_state c)) cs) l0)
  ∧ ∀ x, x ∈ timetable_after_all
               (map (λ c, ServiceSet (conf_time c) (conf_state c)) cs) l0
         ↔ x ∈ events_of_conf cs
           ∨ (x ∈ l0 ∧ StateEvent.time x ∉ map conf_time cs).
Proof.
  revert l0. induction cs as [|c cs IH]; intros l0 Hs Hnd.
  - split; [done|]. intros x. simpl. split.
    + intros Hx. right. split; [done | apply not_elem_of_nil].
    + intros [Hx|[Hx _]]; [by apply elem_of_nil in Hx | done].
  - apply NoDup_cons in Hnd as [Hc Hnd]. simpl.
    pose proof (set_result_strictly_ascending (conf_time c) (conf_state c) l0 Hs) as Hs1.
    destruct (IH _ Hs1 Hnd) as [Hsorted Helem].
    split; [done|]. intros x. rewrite Helem, elem_of_set_result by done.
    rewrite not_elem_of_cons, !elem_of_cons. split.
    + intros [Hx | [[-> | [Hx Hne]] Hnotin]].
      * left. by right.
      * left. by left.
      * right. done.
    + intros [[-> | Hx] | [Hx [Hne Hnotin]]].
      * right. split; [by left | done].
      * by left.
      * right. split; [right|]; done.
Qed.

(** [reconfig] with distinct times is [reset] followed by one [set] per
    entry, in the order of the input. *)
Theorem reconfig_is_reset_then_sets (w : World) (timetable : list conf_event) :
  NoDup (map conf_time timetable) →
  _timetable (self (after (ServiceReconfig timetable) w))
  = _timetable
      (self (after_all
               (ServiceReset
                :: map (λ c, ServiceSet (conf_time c) (conf_state c)) timetable)
               w)).
Proof.
  intros Hnd. rewrite reconfig_timetable, after_all_timetable by done.
  change (timetable_after_all (ServiceReset :: ?cs) ?l)
    with (timetable_after_all cs []).
  destruct (sets_elements timetable [] (SSorted_nil _) Hnd) as [Hs Helem].
  apply strictly_ascending_ext; [|done|].
  - apply sort_by_time_strict. by rewrite times_events_of_conf.
  - intros x. rewrite Helem, sort_by_time_perm. split; [by left|].
    intros [Hx|[Hx _]]; [done | by apply elem_of_nil in Hx].
Qed.

Lemma reconfig_is_reset_then_sets_witness :
  _timetable (self (after (ServiceReconfig [mk_conf (hms 20 0 0) STATE_OFF;
                                            mk_conf (hms 8 0 0) STATE_ON])
                          (world_at [StateEvent.mk (hms 12 0 0) STATE_ON]
                                    (datetime.combine 0%Z (hms 9 0 0)))))
  = _timetable (self (after_all
       (ServiceReset
        :: map (λ c, ServiceSet (conf_time c) (conf_state c))
               [mk_conf (hms 20 0 0) STATE_OFF; mk_conf (hms 8 0 0) STATE_ON])
       (world_at [StateEvent.mk (hms 12 0 0) STATE_ON]
                 (datetime.combine 0%Z (hms 9 0 0))))).
Proof.
  apply reconfig_is_reset_then_sets.
  simpl. constructor.
  - intros Hin. apply elem_of_cons in Hin as [Hin|Hin]; [discriminate Hin|].
    by apply elem_of_nil in Hin.
  - constructor; [apply not_elem_of_nil | constructor].
Defined.

(** [reset] always returns; it leaves no event, no outstanding timer and
    no kept callable, publishes OFF with an empty timetable attribute, and
    does not read the clock. *)
Theorem reset_clears_everything (w : World) :
  timer_tracked w →
  (async_reset w).1 = Ok ()
  ∧ _timetable (self (async_reset w).2) = []
  ∧ outstanding (trace (async_reset w).2) = []
  ∧ _event_unsub (self (async_reset w).2) = None
  ∧ head (trace (async_reset w).2)
    = Some (WriteState STATE_OFF (mk_attributes (editable (self w)) []))
  ∧ ticks (async_reset w).2 = ticks w.
Proof.
  intros Htr. rewrite async_reset_run. cbn [fst snd].
  pose proof (outstanding_cancel_trace w Htr) as Hout.
  unfold updated, written, scheduled, published. simpl. done.
Qed.

Lemma reset_clears_everything_witness :
  outstanding
    (trace (InputTimeTable.async_reset
              (after_all [ServiceSet (hms 6 0 0) STATE_ON;
                          ServiceSet (hms 18 0 0) STATE_OFF]
                         (initial ∅ (λ _, datetime.combine 0%Z (hms 9 0 0))))).2)
  = [].
Proof.
  refine (proj1 (proj2 (proj2 (reset_clears_everything _ _)))).
  intros h p Hin. vm_compute in Hin.
  apply list_elem_of_singleton in Hin. injection Hin as -> _. reflexivity.
Defined.

(** A restore from a snapshot whose time strings all parse returns, and
    leaves one event per entry, in ascending order of time, whatever the
    order of the snapshot: the events read, sorted. *)
Theorem restore_sorts_snapshot (w : World) (ev : attr_event) (rest : list attr_event)
    (events : list event) :
  events_from_attribute (ev :: rest) = Some events →
  (async_added_to_hass (Some (ev :: rest)) w).1 = Ok ()
  ∧ ascending (_timetable (self (async_added_to_hass (Some (ev :: rest)) w).2))
  ∧ _timetable (self (async_added_to_hass (Some (ev :: rest)) w).2) ≡ₚ events
  ∧ Forall2 (λ a e, datetime.fromisoformat (attr_time a) = Some (StateEvent.time e)
                    ∧ attr_state a = StateEvent.state e)
            (ev :: rest) events.
Proof.
  intros Hev. rewrite async_added_to_hass_run, Hev. cbn [fst snd].
  rewrite updated_timetable, with_timetable_timetable.
  split; [done|]. split; [apply sort_by_time_ascending|].
  split; [apply sort_by_time_perm|].
  unfold events_from_attribute in Hev. apply mapM_Some_1 in Hev.
  eapply Forall2_impl; [exact Hev|]. simpl. intros a e Hae.
  destruct (datetime.fromisoformat (attr_time a)) as [t|]; [|done].
  simpl in Hae. injection Hae as <-. done.
Qed.

Lemma restore_sorts_snapshot_witness :
  ascending
    (_timetable (self (InputTimeTable.async_added_to_hass
       (Some [mk_attr "20:00:00" STATE_OFF; mk_attr "08:00:00" STATE_ON])
       (initial ∅ (λ _, datetime.combine 0%Z (hms 9 0 0)))).2)).
Proof.
  refine (proj1 (proj2 (restore_sorts_snapshot _ _ _
            [StateEvent.mk (hms 20 0 0) STATE_OFF; StateEvent.mk (hms 8 0 0) STATE_ON] _))).
  reflexivity.
Defined.

Lemma fromisoformat_lowercase (s : string) :
  begins_with_lowercase s = true → datetime.fromisoformat s = None.
Proof.
  destruct s as [|c s']; [done|]. simpl. intros Hc.
  apply andb_true_iff in Hc as [Hlo Hhi]. apply N.leb_le in Hlo.
  assert (datetime.digit_val c = None) as Hdigit.
  { unfold datetime.digit_val.
    assert ((N_of_ascii c <=? 57)%N = false) as -> by (apply N.leb_gt; lia).
    by rewrite andb_false_r. }
  unfold datetime.fromisoformat. cbn [list_ascii_of_string].
  assert (datetime.parse_hh_mm_ss_ff (c :: list_ascii_of_string s') = None) as ->;
    [|done].
  unfold datetime.parse_hh_mm_ss_ff.
  destruct (list_ascii_of_string s') as [|c2 [|c3 [|c4 [|c5 [|c6 [|c7 [|c8 frac]]]]]]];
    try done; cbn [datetime.parse_digits]; rewrite Hdigit;
    repeat (destruct (_ && _) || destruct (Ascii.eqb _ _)); done.
Qed.

(** A restore from a snapshot with a time string that no
    [time.fromisoformat] reads (it begins with a lower-case letter) raises
    [ValueError] while the comprehension is evaluated, before anything is
    assigned: the timetable stays as it was, [_update_state] is not
    reached, nothing is published and no timer is armed. *)
Theorem restore_of_malformed_snapshot (w : World) (snapshot : list attr_event)
    (a : attr_event) :
  a ∈ snapshot →
  begins_with_lowercase (attr_time a) = true →
  async_added_to_hass (Some snapshot) w
  = (Raise (ValueError "Invalid isoformat string"), w).
Proof.
  intros Hin Hbad. rewrite async_added_to_hass_run.
  destruct snapshot as [|ev rest]; [by apply elem_of_nil in Hin|].
  assert (events_from_attribute (ev :: rest) = None) as ->; [|done].
  unfold events_from_attribute. apply mapM_None.
  apply Exists_exists. exists a. split; [done|].
  by rewrite (fromisoformat_lowercase _ Hbad).
Qed.

Lemma restore_of_malformed_snapshot_witness :
  InputTimeTable.async_added_to_hass
    (Some [mk_attr "08:00:00" STATE_ON; mk_attr "unknown" STATE_OFF])
    (initial ∅ (λ _, datetime.combine 0%Z (hms 9 0 0)))
  = (Raise (ValueError "Invalid isoformat string"),
     initial ∅ (λ _, datetime.combine 0%Z (hms 9 0 0))).
Proof.
  apply (restore_of_malformed_snapshot _ _ (mk_attr "unknown" STATE_OFF)).
  - right. by left.
  - reflexivity.
Defined.

Lemma added_to_hass_nonempty (snapshot : list attr_event) (w : World) :
  snapshot ≠ [] →
  async_added_to_hass (Some snapshot) w
  = match events_from_attribute snapshot with
    | Some events => (Ok (), updated (with_timetable (sort_by_time events) w))
    | None => (Raise (ValueError "Invalid isoformat string"), w)
    end.
Proof.
  intros Hne. rewrite async_added_to_hass_run. by destruct snapshot.
Qed.

(** Restart: the timetable attribute an entity publishes, given to a
    freshly constructed entity as its restored state, gives that entity the
    same timetable, provided the timetable is in ascending order (its times
    being times of day).  An empty attribute is not loaded at all, which
    leaves the fresh entity empty as well. *)
Theorem restart_restores_timetable (w : World) (attrs : attributes)
    (config : gmap string string) (clk : nat → datetime.datetime) :
  Forall (λ e, datetime.valid (StateEvent.time e)) (_timetable (self w)) →
  ascending (_timetable (self w)) →
  (state_attributes w).1 = Ok attrs →
  (async_added_to_hass (Some (ATTR_TIMETABLE attrs)) (initial config clk)).1 = Ok ()
  ∧ _timetable
      (self (async_added_to_hass (Some (ATTR_TIMETABLE attrs)) (initial config clk)).2)
    = _timetable (self w).
Proof.
  intros Hvalid Hs Hattrs.
  assert (ATTR_TIMETABLE attrs = timetable_to_attribute (_timetable (self w))) as ->.
  { unfold state_attributes, _timetable_to_attribute, mbind, M_bind, get_self in Hattrs.
    simpl in Hattrs. by injection Hattrs as <-. }
  destruct (_timetable (self w)) as [|e l] eqn:Htt; [done|].
  rewrite added_to_hass_nonempty by done.
  rewrite events_from_attribute_to_attribute by done. cbn [fst snd].
  rewrite updated_timetable, with_timetable_timetable.
  split; [done|]. by apply sort_by_time_id.
Qed.

Lemma restart_restores_timetable_witness :
  _timetable
    (self (InputTimeTable.async_added_to_hass
             (Some (ATTR_TIMETABLE
                      (mk_attributes true
                         [mk_attr "08:00:00" STATE_ON; mk_attr "20:00:00" STATE_OFF])))
             (initial ∅ (λ _, datetime.combine 1%Z (hms 0 0 0)))).2)
  = _timetable (self (world_at [StateEvent.mk (hms 8 0 0) STATE_ON;
                                StateEvent.mk (hms 20 0 0) STATE_OFF]
                               (datetime.combine 0%Z (hms 9 0 0)))).
Proof.
  refine (proj2 (restart_restores_timetable
                   (world_at [StateEvent.mk (hms 8 0 0) STATE_ON;
                              StateEvent.mk (hms 20 0 0) STATE_OFF]
                             (datetime.combine 0%Z (hms 9 0 0)))
                   _ _ _ _ _ _)).
  - repeat constructor.
  - repeat constructor.
  - reflexivity.
Defined.

End wholesale.

(* ===================================================================== *)
(** * What comes through the services                                      *)
(* ===================================================================== *)

Section services.

Import InputTimeTable.

Local Open Scope N_scope.

(** [remove_micros_and_tz] truncates to the second: the result is a time of
    day without microseconds, not later than the argument and in the same
    second; applying it again changes nothing; two times in the same second
    have the same result; and the result is written HH:MM:SS, eight
    characters, which [fromisoformat] reads back. *)
Theorem remove_micros_and_tz_truncates (t : datetime.time) :
  datetime.valid t →
  datetime.valid (remove_micros_and_tz t)
  ∧ datetime.microsecond (remove_micros_and_tz t) = 0
  ∧ datetime.time_le (remove_micros_and_tz t) t = true
  ∧ remove_micros_and_tz (remove_micros_and_tz t) = remove_micros_and_tz t
  ∧ (∀ t', datetime.hour t' = datetime.hour t →
           datetime.minute t' = datetime.minute t →
           datetime.second t' = datetime.second t →
           remove_micros_and_tz t' = remove_micros_and_tz t)
  ∧ String.length (datetime.isoformat (remove_micros_and_tz t)) = 8%nat
  ∧ datetime.fromisoformat (datetime.isoformat (remove_micros_and_tz t))
    = Some (remove_micros_and_tz t).
Proof.
  intros Hvalid.
  assert (datetime.valid (remove_micros_and_tz t)) as Hvalid'.
  { destruct t as [h m s us]. unfold datetime.valid in *. simpl in *. lia. }
  split; [done|]. split; [done|].
  split; [destruct t as [h m s us]; unfold remove_micros_and_tz; time_order|].
  split; [done|].
  split.
  - intros t' Hh Hm Hs. destruct t, t'. simpl in *.
    unfold remove_micros_and_tz, datetime.replace_microsecond_0. simpl. congruence.
  - split; [reflexivity|]. by apply fromisoformat_isoformat.
Qed.

Lemma remove_micros_and_tz_truncates_witness :
  remove_micros_and_tz (remove_micros_and_tz (datetime.mk_time 8 30 15 250000))
  = remove_micros_and_tz (datetime.mk_time 8 30 15 250000).
Proof.
  refine (proj1 (proj2 (proj2 (proj2
    (remove_micros_and_tz_truncates (datetime.mk_time 8 30 15 250000) _))))).
  repeat split.
Defined.

Lemma Forall_set_result (P : event → Prop) time state (l : list event) :
  P (StateEvent.mk time state) → Forall P l → Forall P (set_result time state l).
Proof.
  intros Hnew Hl. destruct (decide (time ∈ times l)) as [Hin|Hnotin].
  - destruct (first_at _ _ Hin) as (pre & e & post & -> & He & Hpre).
    rewrite set_result_found by done.
    apply Forall_app in Hl as [Hl1 Hl2]. apply Forall_cons in Hl2 as [_ Hl2].
    apply Forall_app. split; [done|]. by constructor.
  - rewrite set_result_new by done. rewrite sort_by_time_perm.
    apply Forall_app. split; [done|]. by constructor.
Qed.

Lemma Forall_unset_loop (P : event → Prop) time (l l' : list event) :
  Forall P l → unset_loop time l = Some l' → Forall P l'.
Proof.
  revert l'. induction l as [|x l IH]; simpl; intros l' Hl Hl'; [done|].
  apply Forall_cons in Hl as [Hx Hl].
  destruct (datetime.time_eq (StateEvent.time x) time).
  - by injection Hl' as <-.
  - destruct (unset_loop time l) as [l''|]; [|done].
    simpl in Hl'. injection Hl' as <-. constructor; [done|]. by apply IH.
Qed.

Lemma timetable_after_schema_shaped (c : call) (l : list event) :
  from_services c → schema_shaped l → schema_shaped (timetable_after c l).
Proof.
  unfold schema_shaped.
  destruct c as [last|time state|time| |timetable|config|h|]; simpl;
    intros Hc Hl; try done.
  - by apply Forall_set_result.
  - destruct (unset_loop time l) as [l'|] eqn:Hl'; simpl; [|done].
    by eapply Forall_unset_loop.
  - destruct (has_duplicate_time timetable); [done|].
    rewrite sort_by_time_perm. unfold events_of_conf.
    change (map ?f timetable) with (f <$> timetable).
    by rewrite Forall_fmap.
Qed.

Lemma state_loop_cases now (prev : event) (events : list event) :
  state_loop now prev events = prev ∨ state_loop now prev events ∈ events.
Proof.
  revert prev. induction events as [|x events IH]; intros prev; simpl; [by left|].
  destruct (_ && _); [by left|].
  right. destruct (IH x) as [-> | Hin]; [by left | by right].
Qed.

Lemma state_at_states (P : string → Prop) (events : list event) now :
  P STATE_OFF → Forall (λ e, P (StateEvent.state e)) events →
  P (state_at events now).
Proof.
  intros Hoff Hall. unfold state_at.
  destruct (last events) as [final|] eqn:Hlast; [|done].
  rewrite Forall_forall in Hall.
  destruct (state_loop_cases now (StateEvent.mk MIDNIGHT (StateEvent.state final)) events)
    as [-> | Hin].
  - simpl. by apply Hall, last_Some_elem_of.
  - by apply Hall.
Qed.

(** An entity that is driven through its services only: from a timetable
    whose events could have come through the service schemas, every
    sequence of [set], [unset], [reset] and [reconfig] calls with data that
    passed the schemas (and of timer firings, configuration updates and the
    removal) leaves such a timetable; the state is then "on" or "off" at
    every instant, and every published entry reads HH:MM:SS with state "on"
    or "off". *)
Theorem services_keep_schema_shape (calls : list call) (w : World) :
  Forall from_services calls →
  schema_shaped (_timetable (self w)) →
  schema_shaped (_timetable (self (after_all calls w)))
  ∧ (∀ now, state_at (_timetable (self (after_all calls w))) now
            ∈ [STATE_ON; STATE_OFF])
  ∧ Forall (λ a, String.length (attr_time a) = 8%nat
                 ∧ attr_state a ∈ [STATE_ON; STATE_OFF])
           (timetable_to_attribute (_timetable (self (after_all calls w)))).
Proof.
  intros Hcalls Hw.
  assert (schema_shaped (_timetable (self (after_all calls w)))) as Hshape.
  { rewrite after_all_timetable. unfold timetable_after_all.
    revert Hw. generalize (_timetable (self w)).
    induction Hcalls as [|c calls Hc Hcalls IH]; intros l Hl; [done|].
    simpl. by apply IH, timetable_after_schema_shaped. }
  split; [done|]. unfold schema_shaped, passes_schema in Hshape. split.
  - intros now. apply state_at_states.
    + right. by left.
    + eapply Forall_impl; [exact Hshape|]. by intros e (_ & _ & He).
  - unfold timetable_to_attribute.
    change (map ?f ?l) with (f <$> l). rewrite Forall_fmap.
    eapply Forall_impl; [exact Hshape|]. intros e (_ & Hus & He). simpl.
    split; [|done].
    unfold datetime.isoformat, datetime.isoformat_chars. by rewrite Hus.
Qed.

Lemma services_keep_schema_shape_witness :
  schema_shaped
    (_timetable (self (after_all
       [ServiceSet (hms 20 0 0) STATE_OFF;
        ServiceReconfig [mk_conf (hms 9 0 0) STATE_ON];
        ServiceUnset (hms 7 0 0)]
       (initial ∅ (λ _, datetime.combine 0%Z (hms 12 0 0)))))).
Proof.
  refine (proj1 (services_keep_schema_shape _ _ _ _)).
  - repeat constructor.
  - constructor.
Defined.

(** [_sort_timetable] is a stable sort by time: it returns, the timetable
    it leaves is in ascending order of time and a permutation of the one it
    found, events with the same time keep their order, and sorting again
    changes nothing. *)
Theorem sort_timetable_is_stable (w : World) :
  (_sort_timetable w).1 = Ok ()
  ∧ ascending (_timetable (self (_sort_timetable w).2))
  ∧ _timetable (self (_sort_timetable w).2) ≡ₚ _timetable (self w)
  ∧ (∀ t, filter (λ e, StateEvent.time e = t) (_timetable (self (_sort_timetable w).2))
          = filter (λ e, StateEvent.time e = t) (_timetable (self w)))
  ∧ _sort_timetable (_sort_timetable w).2 = (Ok (), (_sort_timetable w).2).
Proof.
  assert (_sort_timetable w
          = (Ok (), with_timetable (sort_by_time (_timetable (self w))) w)) as ->
    by reflexivity.
  cbn [fst snd]. rewrite with_timetable_timetable.
  split; [done|]. split; [apply sort_by_time_ascending|].
  split; [apply sort_by_time_perm|]. split; [intros t; apply sort_by_time_stable|].
  assert (∀ w0, _sort_timetable w0
                = (Ok (), with_timetable (sort_by_time (_timetable (self w0))) w0))
    as -> by reflexivity.
  rewrite with_timetable_timetable.
  rewrite (sort_by_time_id (sort_by_time _)) by apply sort_by_time_ascending.
  reflexivity.
Qed.

End services.

(* ===================================================================== *)
(** * [TimeTableStorageCollection._update_data]                            *)
(* ===================================================================== *)

(** [_update_data] raises what the schema raises; when the schema accepts
    the update, the result has the update's value at every key of the
    update and the stored value at every other key, and applying the same
    update to the result changes nothing. *)
Theorem update_data_merges
    (UPDATE_SCHEMA : gmap string string → Result (gmap string string))
    (data update_data : gmap string string) :
  (∀ e, UPDATE_SCHEMA update_data = Raise e →
        TimeTableStorageCollection._update_data UPDATE_SCHEMA data update_data = Raise e)
  ∧ (∀ validated, UPDATE_SCHEMA update_data = Ok validated →
       ∃ result,
         TimeTableStorageCollection._update_data UPDATE_SCHEMA data update_data
         = Ok result
         ∧ (∀ k v, update_data !! k = Some v → result !! k = Some v)
         ∧ (∀ k, update_data !! k = None → result !! k = data !! k)
         ∧ TimeTableStorageCollection._update_data UPDATE_SCHEMA result update_data
           = Ok result).
Proof.
  unfold TimeTableStorageCollection._update_data. split.
  - by intros e ->.
  - intros validated ->. exists (update_data ∪ data).
    split; [done|]. split; [|split].
    + intros k v Hk. by apply lookup_union_Some_l.
    + intros k Hk. by apply lookup_union_r.
    + by rewrite (assoc_L (∪)), (idemp_L (∪)).
Qed.

Lemma update_data_merges_witness :
  ∃ result,
    TimeTableStorageCollection._update_data (λ d, Ok d)
      {[CONF_ID := "heating"; CONF_NAME := "Heating"]} {[CONF_NAME := "Boiler"]}
    = Ok result
    ∧ result !! CONF_NAME = Some "Boiler"
    ∧ result !! CONF_ID = Some "heating".
Proof.
  destruct (proj2 (update_data_merges (λ d, Ok d)
                     {[CONF_ID := "heating"; CONF_NAME := "Heating"]}
                     {[CONF_NAME := "Boiler"]})
                  {[CONF_NAME := "Boiler"]} eq_refl)
    as (result & Hres & Hupdate & Hkeep & _).
  exists result. split; [exact Hres|]. split.
  - apply Hupdate. reflexivity.
  - rewrite Hkeep; reflexivity.
Defined.
